(** * LearnLens: mastery, spaced repetition, progression and the quiz client

    The scheduling engine of the backend (services/quiz_engine.py and
    routers/progress.py) is not part of the sources at hand; the parts of it
    below are modelled from the spec and say so in their doc comments.  The
    client pages (pages/Quiz.jsx, pages/Upload.jsx's Dashboard and
    components/Navbar.jsx) are embedded from their source. *)

From Stdlib Require Import ZArith QArith Qminmax Qround Lia.
From Stdlib Require Import Sorting.Sorted.
From stdpp Require Import gmap strings list pretty.

Open Scope Z_scope.

(* ------------------------------------------------------------------ *)
(** ** Spaced-repetition scheduler (SM-2) *)

Module SM2.

(** Scheduling sub-state of a card: repetition count, interval in days and
    ease factor. *)
Record card := mkCard {
  repetition : Z;
  interval : Z;
  ease : Q
}.

(** Modelled from the spec (quiz_engine.py's SM-2 update is missing):
    [ease = max(1.3, ease + (0.1 - (5-quality)*(0.08 + (5-quality)*0.02)))]. *)
Definition ease_update (e : Q) (quality : Z) : Q :=
  Qmax (13 # 10)
    (e + ((1 # 10) - inject_Z (5 - quality)
                      * ((8 # 100) + inject_Z (5 - quality) * (2 # 100))))%Q.

(** Modelled from the spec: [round] to the nearest integer. *)
Definition round (x : Q) : Z := Qfloor (x + (1 # 2))%Q.

(** Modelled from the spec (quiz_engine.py's [grade] is missing): quality
    below 3 resets repetition to 0 and interval to 1 day; otherwise
    repetition is incremented and the interval is 1, 6 or
    [round(previous_interval * ease)] with the freshly updated ease, as the
    spec's SM-2 determinism property ([round(6 x new_ease)]) fixes it. *)
Definition grade (c : card) (quality : Z) : card :=
  let e' := ease_update (ease c) quality in
  if quality <? 3 then mkCard 0 1 e'
  else
    let r := repetition c + 1 in
    mkCard r
      (if r =? 1 then 1
       else if r =? 2 then 6
       else round (inject_Z (interval c) * e')%Q)
      e'.

(** Modelled from the spec: quality derived from correctness and hints. *)
Definition quality_of (is_correct : bool) (hints_used : Z) : Z :=
  if is_correct then 5 - Z.max 0 (Z.min 3 hints_used) else 0.

Definition fresh_card : card := mkCard 0 0 (5 # 2).

End SM2.

(* ------------------------------------------------------------------ *)
(** ** Answer events, mastery model and progression ledger *)

Module Engine.

(** An answer event as handed to the engine. *)
Record answer_event := mkEvent {
  ev_user : string;
  ev_topic : string;
  ev_correct : bool;
  ev_hints : Z
}.

(** Modelled from the spec (the event recorder is missing):
    [hints_used] clamped to [0,3]. *)
Definition clamp_hints (h : Z) : Z := Z.max 0 (Z.min 3 h).

Definition alpha : Q := 3 # 10.

(** Modelled from the spec: target 100 for a correct unhinted answer,
    10 less per hint with a floor of 50 for a hinted correct answer, 0 for an
    incorrect one. *)
Definition target (is_correct : bool) (hints_used : Z) : Q :=
  if is_correct then Qmax 50 (100 - inject_Z (10 * hints_used))%Q else 0%Q.

Definition clamp_mastery (x : Q) : Q := Qmax 0 (Qmin 100 x).

(** Modelled from the spec (the mastery update is missing): the mastery
    cache is keyed by (user, topic); the first event
    of a topic sets mastery to the target; later ones blend
    [old + alpha*(target - old)], clamped to [0,100]. *)
Definition mastery_update (m : gmap (string * string) Q) (ev : answer_event) : gmap (string * string) Q :=
  let k := (ev_user ev, ev_topic ev) in
  let t := target (ev_correct ev) (clamp_hints (ev_hints ev)) in
  match m !! k with
  | None => <[k := t]> m
  | Some old => <[k := clamp_mastery (old + alpha * (t - old))%Q]> m
  end.

Definition replay_mastery (evs : list answer_event) : gmap (string * string) Q :=
  fold_left mastery_update evs ∅.

(** Modelled from the spec: the dashboard's [topic_mastery] list of one
    user, as (topic, mastery) pairs. *)
Definition topic_mastery (user : string) (m : gmap (string * string) Q) : list (string * Q) :=
  omap (fun '(k, v) => if String.eqb k.1 user then Some (k.2, v) else None)
       (map_to_list m).

(** Upload.jsx Dashboard: each mastery bar is drawn at [width: topic.mastery%]
    and the radar's radius axis has [domain={[0, 100]}]. *)
Definition mastery_bar_width (t : string * Q) : Q := t.2.
Definition radar_domain : Q * Q := (0%Q, 100%Q).

Definition in_radar_domain (x : Q) : Prop :=
  (radar_domain.1 <= x <= radar_domain.2)%Q.

(** Modelled from the spec (award_xp is missing):
    [xp_delta = is_correct ? max(0, base_xp - hints_used*2) : 0]. *)
Definition award_xp (is_correct : bool) (hints_used : Z) (base_xp : Z) : Z :=
  if is_correct then Z.max 0 (base_xp - hints_used * 2) else 0.

Definition base_xp : Z := 10.

Definition xp_step (total : Z) (ev : answer_event) : Z :=
  total + award_xp (ev_correct ev) (clamp_hints (ev_hints ev)) base_xp.

Definition total_xp (evs : list answer_event) : Z := fold_left xp_step evs 0.

(** Modelled from the spec:
    [level(total_xp) = floor(sqrt(total_xp / 100)) + 1].  For an integer
    [total_xp >= 0], [floor(sqrt(x/100)) = isqrt(x div 100)]. *)
Definition level (xp : Z) : Z := Z.sqrt (xp / 100) + 1.

(** Modelled from the spec: the inverse [xp_for_level(L)], the least XP of
    level [L]. *)
Definition xp_for_level (L : Z) : Z := 100 * (L - 1) * (L - 1).

(** Modelled from the spec:
    [(total_xp - xp_for_level(level)) / (xp_for_level(level+1) - xp_for_level(level))]. *)
Definition level_progress (xp : Z) : Q :=
  (inject_Z (xp - xp_for_level (level xp))
   / inject_Z (xp_for_level (level xp + 1) - xp_for_level (level xp)))%Q.

(** Upload.jsx Dashboard: [levelProgress = stats.level_progress || 0] and
    the level bar is drawn at [width: levelProgress * 100 %]. *)
Definition level_bar_width (level_progress_field : Q) : Q :=
  let lp := if Qeq_bool level_progress_field 0 then 0%Q else level_progress_field in
  (lp * 100)%Q.

End Engine.

(* ------------------------------------------------------------------ *)
(** ** Review queue *)

Module Review.

(** A card as the review queue sees it: question id, owning topic, question
    text and due timestamp. *)
Record due_card := mkDue {
  c_qid : Z;
  c_topic : string;
  question_text : string;
  due_timestamp : Z
}.

Section Queue.

(** Mastery of the owning topic, for the user whose queue is built. *)
Variable mastery_of : string -> Q.

(** Priority order: due timestamp ascending, ties by lowest topic mastery. *)
Definition before (a b : due_card) : bool :=
  (due_timestamp a <? due_timestamp b)
  || ((due_timestamp a =? due_timestamp b)
      && Qle_bool (mastery_of (c_topic a)) (mastery_of (c_topic b))).

Definition in_order (a b : due_card) : Prop := before a b = true.

Fixpoint insert_card (c : due_card) (q : list due_card) : list due_card :=
  match q with
  | [] => [c]
  | d :: q' => if before c d then c :: d :: q' else d :: insert_card c q'
  end.

Fixpoint sort_cards (q : list due_card) : list due_card :=
  match q with
  | [] => []
  | c :: q' => insert_card c (sort_cards q')
  end.

(** Modelled from the spec ([due_queue] is missing): the cards with
    [due_timestamp <= now], in priority order. *)
Definition due_queue (cards : list due_card) (now : Z) : list due_card :=
  sort_cards (List.filter (fun c => due_timestamp c <=? now) cards).

End Queue.

(** Upload.jsx Dashboard: one review entry,
    [item.question_text.substring(0, 80) + '...']. *)
Definition render_item (item : due_card) : string :=
  String.append (String.substring 0 80 (question_text item)) "...".

(** Upload.jsx Dashboard: [review_queue.slice(0, 3).map(...)], in the order
    received. *)
Definition render_review_queue (review_queue : list due_card) : list string :=
  map render_item (take 3 review_queue).

End Review.

(* ------------------------------------------------------------------ *)
(** ** The quiz page (pages/Quiz.jsx) *)

Module QuizPage.

(** A quiz question as the page reads it. *)
Record question := mkQuestion {
  q_id : Z;
  question_type : string;
  options : option (list string)
}.

(** The answer endpoint's result, the fields the page reads. *)
Record answer_result := mkResult {
  is_correct : bool;
  xp_earned : Z
}.

(** Requests the page sends: [quizzesAPI.hint(question_id, hint_level)] and
    [quizzesAPI.answer(question_id, user_answer)]. *)
Inductive request :=
| HintRequest (question_id : Z) (hint_level : Z)
| AnswerRequest (question_id : Z) (user_answer : string).

(** Continuations of the page's async handlers still waiting, with the
    values their closures captured when the handler ran; and the XP popup's
    2 s timer. *)
Inductive pending :=
| AwaitHint (nextLevel : Z) (hints_at_call : list (Z * string))
| AwaitAnswer (results_at_call : list answer_result)
| PopupTimer.

(** How a pending continuation resumes. *)
Inductive outcome :=
| HintOk (hint_text : string)
| AnswerOk (r : answer_result)
| Rejected
| TimerFired.

(** The component's state hooks once the quiz is loaded, plus the requests
    sent so far and the pending continuations. *)
Record state := mkState {
  quiz : list question;
  currentIndex : nat;
  selectedOption : option string;
  shortAnswer : string;
  feedback : option answer_result;
  hints : list (Z * string);
  hintLevel : Z;
  submitting : bool;
  xpPopup : option Z;
  results : list answer_result;
  completed : bool;
  sent : list request;
  inflight : list pending
}.

Definition set_currentIndex (s : state) (v : nat) : state :=
  {| quiz := quiz s; currentIndex := v; selectedOption := selectedOption s;
     shortAnswer := shortAnswer s; feedback := feedback s; hints := hints s;
     hintLevel := hintLevel s; submitting := submitting s; xpPopup := xpPopup s;
     results := results s; completed := completed s; sent := sent s;
     inflight := inflight s |}.

Definition set_selectedOption (s : state) (v : option string) : state :=
  {| quiz := quiz s; currentIndex := currentIndex s; selectedOption := v;
     shortAnswer := shortAnswer s; feedback := feedback s; hints := hints s;
     hintLevel := hintLevel s; submitting := submitting s; xpPopup := xpPopup s;
     results := results s; completed := completed s; sent := sent s;
     inflight := inflight s |}.

Definition set_shortAnswer (s : state) (v : string) : state :=
  {| quiz := quiz s; currentIndex := currentIndex s; selectedOption := selectedOption s;
     shortAnswer := v; feedback := feedback s; hints := hints s;
     hintLevel := hintLevel s; submitting := submitting s; xpPopup := xpPopup s;
     results := results s; completed := completed s; sent := sent s;
     inflight := inflight s |}.

Definition set_feedback (s : state) (v : option answer_result) : state :=
  {| quiz := quiz s; currentIndex := currentIndex s; selectedOption := selectedOption s;
     shortAnswer := shortAnswer s; feedback := v; hints := hints s;
     hintLevel := hintLevel s; submitting := submitting s; xpPopup := xpPopup s;
     results := results s; completed := completed s; sent := sent s;
     inflight := inflight s |}.

Definition set_hints (s : state) (v : list (Z * string)) : state :=
  {| quiz := quiz s; currentIndex := currentIndex s; selectedOption := selectedOption s;
     shortAnswer := shortAnswer s; feedback := feedback s; hints := v;
     hintLevel := hintLevel s; submitting := submitting s; xpPopup := xpPopup s;
     results := results s; completed := completed s; sent := sent s;
     inflight := inflight s |}.

Definition set_hintLevel (s : state) (v : Z) : state :=
  {| quiz := quiz s; currentIndex := currentIndex s; selectedOption := selectedOption s;
     shortAnswer := shortAnswer s; feedback := feedback s; hints := hints s;
     hintLevel := v; submitting := submitting s; xpPopup := xpPopup s;
     results := results s; completed := completed s; sent := sent s;
     inflight := inflight s |}.

Definition set_submitting (s : state) (v : bool) : state :=
  {| quiz := quiz s; currentIndex := currentIndex s; selectedOption := selectedOption s;
     shortAnswer := shortAnswer s; feedback := feedback s; hints := hints s;
     hintLevel := hintLevel s; submitting := v; xpPopup := xpPopup s;
     results := results s; completed := completed s; sent := sent s;
     inflight := inflight s |}.

Definition set_xpPopup (s : state) (v : option Z) : state :=
  {| quiz := quiz s; currentIndex := currentIndex s; selectedOption := selectedOption s;
     shortAnswer := shortAnswer s; feedback := feedback s; hints := hints s;
     hintLevel := hintLevel s; submitting := submitting s; xpPopup := v;
     results := results s; completed := completed s; sent := sent s;
     inflight := inflight s |}.

Definition set_results (s : state) (v : list answer_result) : state :=
  {| quiz := quiz s; currentIndex := currentIndex s; selectedOption := selectedOption s;
     shortAnswer := shortAnswer s; feedback := feedback s; hints := hints s;
     hintLevel := hintLevel s; submitting := submitting s; xpPopup := xpPopup s;
     results := v; completed := completed s; sent := sent s;
     inflight := inflight s |}.

Definition set_completed (s : state) (v : bool) : state :=
  {| quiz := quiz s; currentIndex := currentIndex s; selectedOption := selectedOption s;
     shortAnswer := shortAnswer s; feedback := feedback s; hints := hints s;
     hintLevel := hintLevel s; submitting := submitting s; xpPopup := xpPopup s;
     results := results s; completed := v; sent := sent s;
     inflight := inflight s |}.

Definition set_sent (s : state) (v : list request) : state :=
  {| quiz := quiz s; currentIndex := currentIndex s; selectedOption := selectedOption s;
     shortAnswer := shortAnswer s; feedback := feedback s; hints := hints s;
     hintLevel := hintLevel s; submitting := submitting s; xpPopup := xpPopup s;
     results := results s; completed := completed s; sent := v;
     inflight := inflight s |}.

Definition set_inflight (s : state) (v : list pending) : state :=
  {| quiz := quiz s; currentIndex := currentIndex s; selectedOption := selectedOption s;
     shortAnswer := shortAnswer s; feedback := feedback s; hints := hints s;
     hintLevel := hintLevel s; submitting := submitting s; xpPopup := xpPopup s;
     results := results s; completed := completed s; sent := sent s;
     inflight := v |}.

(** State after [loadQuiz] succeeded with [quiz.questions = qs]. *)
Definition loaded (qs : list question) : state :=
  mkState qs 0 None EmptyString None [] 0 false None [] false [] [].

(** [currentQuestion = quiz?.questions?.[currentIndex]] *)
Definition current_question (s : state) : option question :=
  quiz s !! currentIndex s.

(** [!feedback] *)
Definition no_feedback (s : state) : bool :=
  match feedback s with None => true | Some _ => false end.

Definition is_mcq (q : question) : bool := String.eqb (question_type q) "mcq".

(** JS truthiness of a string or [null]. *)
Definition truthy (x : option string) : bool :=
  match x with Some v => negb (String.eqb v EmptyString) | None => false end.

(** [{...hints, [nextLevel]: text}] *)
Definition obj_set (o : list (Z * string)) (k : Z) (v : string) : list (Z * string) :=
  (k, v) :: List.filter (fun p => negb (p.1 =? k)) o.

(** The question card is shown: quiz loaded with questions, not completed. *)
Definition question_view (s : state) : bool :=
  negb (completed s) && (0 <? length (quiz s))%nat.

(** [handleSubmit] up to its [await]. *)
Definition handleSubmit (s : state) : state :=
  match current_question s with
  | None => s
  | Some cq =>
      if submitting s then s
      else
        let answer := if is_mcq cq then selectedOption s else Some (shortAnswer s) in
        if negb (truthy answer) then s
        else
          let a := default EmptyString answer in
          let s1 := set_submitting s true in
          let s2 := set_sent s1 (sent s1 ++ [AnswerRequest (q_id cq) a]) in
          set_inflight s2 (inflight s2 ++ [AwaitAnswer (results s)])
  end.

(** [requestHint] up to its [await]; [currentQuestion.id] on a missing
    question throws inside the [try] and is caught. *)
Definition requestHint (s : state) : state :=
  let nextLevel := hintLevel s + 1 in
  if 3 <? nextLevel then s
  else
    match current_question s with
    | None => s
    | Some cq =>
        let s1 := set_sent s (sent s ++ [HintRequest (q_id cq) nextLevel]) in
        set_inflight s1 (inflight s1 ++ [AwaitHint nextLevel (hints s)])
    end.

(** [handleNext] (the confetti has no state). *)
Definition handleNext (s : state) : state :=
  if (length (quiz s) <=? currentIndex s + 1)%nat then set_completed s true
  else
    let s1 := set_currentIndex s (currentIndex s + 1) in
    let s2 := set_selectedOption s1 None in
    let s3 := set_shortAnswer s2 EmptyString in
    let s4 := set_feedback s3 None in
    let s5 := set_hints s4 [] in
    set_hintLevel s5 0.

(** The part of a handler after its [await], run on the current state with
    the values captured by its closure. *)
Definition resume (s : state) (p : pending) (o : outcome) : state :=
  match p, o with
  | AwaitHint lvl hs, HintOk text =>
      set_hintLevel (set_hints s (obj_set hs lvl text)) lvl
  | AwaitHint _ _, _ => s
  | AwaitAnswer rs, AnswerOk r =>
      let s1 := set_feedback s (Some r) in
      let s2 := set_results s1 (rs ++ [r]) in
      let s3 := if 0 <? xp_earned r
                then set_inflight (set_xpPopup s2 (Some (xp_earned r)))
                                  (inflight s2 ++ [PopupTimer])
                else s2 in
      set_submitting s3 false
  | AwaitAnswer _, _ => set_submitting s false
  | PopupTimer, _ => set_xpPopup s None
  end.

(** The [i]-th pending continuation resumes. *)
Definition settle (s : state) (i : nat) (o : outcome) : state :=
  match inflight s !! i with
  | None => s
  | Some p => resume (set_inflight s (delete i (inflight s))) p o
  end.

(** [disabled={submitting || (!selectedOption && !shortAnswer)}] *)
Definition submit_disabled (s : state) : bool :=
  submitting s || (negb (truthy (selectedOption s)) && String.eqb (shortAnswer s) EmptyString).

(** [{hintLevel < 3 && <button onClick={requestHint}>}] inside [{!feedback && ...}] *)
Definition hint_button_rendered (s : state) : bool :=
  question_view s && no_feedback s && (hintLevel s <? 3).

(** [{hintLevel > 0 && !feedback && "{3 - hintLevel} hints remaining ·
    XP reduced by {hintLevel * 2}"}] *)
Definition xp_notice (s : state) : option (Z * Z) :=
  if question_view s && (0 <? hintLevel s) && no_feedback s
  then Some (3 - hintLevel s, hintLevel s * 2) else None.

Definition option_listed (cq : question) (opt : string) : bool :=
  match options cq with
  | Some os => existsb (String.eqb opt) os
  | None => false
  end.

(** What the user can do on the rendered page, or a pending continuation
    resuming. *)
Inductive ui_event :=
| ClickOption (opt : string)
| TypeShortAnswer (text : string)
| PressEnter
| ClickSubmit
| ClickHint
| ClickNext
| Settle (i : nat) (o : outcome).

(** One event; an element that is not rendered or disabled has no effect. *)
Definition dispatch (s : state) (e : ui_event) : state :=
  match e with
  | ClickOption opt =>
      match current_question s with
      | Some cq =>
          if question_view s && is_mcq cq && option_listed cq opt && no_feedback s
          then set_selectedOption s (Some opt) else s
      | None => s
      end
  | TypeShortAnswer text =>
      match current_question s with
      | Some cq =>
          if question_view s && String.eqb (question_type cq) "short_answer"
             && no_feedback s
          then set_shortAnswer s text else s
      | None => s
      end
  | PressEnter =>
      match current_question s with
      | Some cq =>
          if question_view s && String.eqb (question_type cq) "short_answer"
             && no_feedback s
          then handleSubmit s else s
      | None => s
      end
  | ClickSubmit =>
      if question_view s && no_feedback s && negb (submit_disabled s)
      then handleSubmit s else s
  | ClickHint => if hint_button_rendered s then requestHint s else s
  | ClickNext =>
      if question_view s && negb (no_feedback s) then handleNext s else s
  | Settle i o => settle s i o
  end.

Definition run (qs : list question) (evs : list ui_event) : state :=
  fold_left dispatch evs (loaded qs).

End QuizPage.

(** Derived values the quiz page renders. *)
Module QuizScreen.
Import QuizPage.

(** [progress = quiz ? (currentIndex / quiz.questions.length) * 100 : 0] *)
Definition progress (s : state) : Q :=
  (inject_Z (Z.of_nat (currentIndex s)) / inject_Z (Z.of_nat (length (quiz s))) * 100)%Q.

(** [results.filter(r => r.is_correct).length] *)
Definition total_correct (rs : list answer_result) : nat :=
  length (List.filter is_correct rs).

(** [results.reduce((sum, r) => sum + (r.xp_earned || 0), 0)] *)
Definition total_xp_earned (rs : list answer_result) : Z :=
  fold_left (fun sum r => sum + xp_earned r) rs 0.

(** [Math.round]: the nearest integer, halves rounded up. *)
Definition js_round (x : Q) : Z := Qfloor (x + (1 # 2))%Q.

(** [Math.round((totalCorrect / results.length) * 100)]; [None] is the
    [NaN] of an empty [results]. *)
Definition score_percent (rs : list answer_result) : option Z :=
  match length rs with
  | O => None
  | S _ => Some (js_round (inject_Z (Z.of_nat (total_correct rs))
                           / inject_Z (Z.of_nat (length rs)) * 100)%Q)
  end.

(** Hint button label: [hintLevel === 0 ? 'Need a hint?' : `Hint ${hintLevel + 1} of 3`];
    [None] stands for 'Need a hint?'. *)
Definition hint_button_label (s : state) : option Z :=
  if hintLevel s =? 0 then None else Some (hintLevel s + 1).

Definition is_await_answer (p : pending) : bool :=
  match p with AwaitAnswer _ => true | _ => false end.

(** Answer submissions waiting for their response. *)
Definition answers_in_flight (s : state) : nat :=
  length (List.filter is_await_answer (inflight s)).

End QuizScreen.

(* ------------------------------------------------------------------ *)
(** ** Progress views and their consumers (Upload.jsx Dashboard, Navbar.jsx) *)

Module Views.

#[local] Set Warnings "-register-all".

(** JSON values as the client receives them from [response.json()]. *)
Inductive jsval :=
| JNum (n : Q)
| JStr (s : string)
| JList (l : list jsval)
| JObj (fields : list (string * jsval))
| JUndefined.

Fixpoint field (fs : list (string * jsval)) (k : string) : jsval :=
  match fs with
  | [] => JUndefined
  | (k', v) :: fs' => if String.eqb k k' then v else field fs' k
  end.

(** Property access [o.k]. *)
Definition get (o : jsval) (k : string) : jsval :=
  match o with JObj fs => field fs k | _ => JUndefined end.

Definition keys (o : jsval) : list string :=
  match o with JObj fs => map fst fs | _ => [] end.

Definition js_truthy (v : jsval) : bool :=
  match v with
  | JNum n => negb (Qeq_bool n 0)
  | JStr s => negb (String.eqb s EmptyString)
  | JList _ | JObj _ => true
  | JUndefined => false
  end.

(** [v || d] *)
Definition js_or (v d : jsval) : jsval := if js_truthy v then v else d.

Definition num (z : Z) : jsval := JNum (inject_Z z).

(** The user progress snapshot. *)
Record progress := mkProgress {
  xp : Z;
  streak : Z;
  longest_streak : Z;
  total_questions : Z;
  total_correct : Z
}.

(** Modelled from the spec (routers/progress.py is missing):
    [stats(user) -> {xp, streak, level}]. *)
Definition stats_response (p : progress) : jsval :=
  JObj [("xp", num (xp p)); ("streak", num (streak p));
        ("level", num (Engine.level (xp p)))].

(** Modelled from the spec (routers/progress.py is missing):
    [dashboard(user) -> {topic_mastery, recent_quizzes, review_queue,
    stats: {xp, level, level_progress, streak, longest_streak, accuracy,
    total_questions, total_correct}}]. *)
Definition dashboard_response (p : progress) (accuracy : Q)
    (topic_mastery recent_quizzes review_queue : list jsval) : jsval :=
  JObj [("topic_mastery", JList topic_mastery);
        ("recent_quizzes", JList recent_quizzes);
        ("review_queue", JList review_queue);
        ("stats", JObj [("xp", num (xp p));
                        ("level", num (Engine.level (xp p)));
                        ("level_progress", JNum (Engine.level_progress (xp p)));
                        ("streak", num (streak p));
                        ("longest_streak", num (longest_streak p));
                        ("accuracy", JNum accuracy);
                        ("total_questions", num (total_questions p));
                        ("total_correct", num (total_correct p))])].

(** Top-level properties of [data] the Dashboard reads (lines 290, 311, 544). *)
Definition dashboard_top_reads : list string :=
  ["topic_mastery"; "stats"; "recent_quizzes"; "review_queue"; "documents_count"].

(** Properties of [data.stats] the Dashboard reads (lines 290-545). *)
Definition dashboard_stats_reads : list string :=
  ["total_questions"; "level_progress"; "xp"; "level"; "streak"; "accuracy";
   "xp_in_level"; "xp_for_next"; "total_correct"; "longest_streak"].

(** Level labels: [{stats.xp_in_level || 0} XP] and
    [{stats.xp_for_next || 100} XP needed]. *)
Definition level_labels (data : jsval) : jsval * jsval :=
  let stats := get data "stats" in
  (js_or (get stats "xp_in_level") (num 0), js_or (get stats "xp_for_next") (num 100)).

(** Footer: [{data.documents_count} documents]. *)
Definition documents_label (data : jsval) : jsval := get data "documents_count".

(** Navbar state: the [stats] hook and the current pathname. *)
Record navbar := mkNavbar {
  nb_stats : jsval;
  pathname : string;
  fetches : nat
}.

(** [useState({ xp: 0, streak: 0, level: 1 })] *)
Definition navbar_init (path : string) : navbar :=
  mkNavbar (JObj [("xp", num 0); ("streak", num 0); ("level", num 1)]) path 1.

Inductive navbar_event :=
| RouteChange (path : string)
| StatsFetched (resp : option jsval).

(** [useEffect(() => { progressAPI.stats().then(setStats).catch(() => {}) },
    [location.pathname])]: a changed pathname issues a fetch; a fulfilled
    fetch replaces [stats], a rejected one is swallowed. *)
Definition navbar_step (n : navbar) (e : navbar_event) : navbar :=
  match e with
  | RouteChange path =>
      if String.eqb path (pathname n) then n
      else mkNavbar (nb_stats n) path (S (fetches n))
  | StatsFetched (Some resp) => mkNavbar resp (pathname n) (fetches n)
  | StatsFetched None => n
  end.

(** Properties of [stats] the navbar reads. *)
Definition navbar_reads : list string := ["xp"; "streak"; "level"].

(** [{stats.xp} XP], [{stats.streak}], [Lv.{stats.level}] *)
Definition navbar_display (n : navbar) : list jsval :=
  map (get (nb_stats n)) navbar_reads.

End Views.

(* ------------------------------------------------------------------ *)
(** ** The upload page (Upload.jsx, [Upload]) *)

Module UploadPage.
Import Views.

(** Continuations still waiting: the [documentsAPI.upload] of an [onDrop]
    (its closure holds the id of the step interval it started), a
    [loadDocuments] (the one [onDrop] awaits after a successful upload goes
    on to set the 1.5 s reset timer), and that reset timer. *)
Inductive upending :=
| AwaitUpload (stepInterval : nat)
| AwaitDocs (then_reset : bool)
| ResetTimer.

(** How a pending continuation resumes: a fulfilled request, a rejected one
    with the [Error]'s message, or a timer firing. *)
Inductive uoutcome :=
| Fulfilled (v : jsval)
| RejectedWith (message : string)
| Fired.

(** The page's state hooks touched by [loadDocuments] and [onDrop], the
    running step intervals and the pending continuations. *)
Record ustate := mkUState {
  documents : jsval;
  uploading : bool;
  processingStep : Z;
  uploadedDoc : option jsval;
  error : option string;
  intervals : list nat;
  next_timer : nat;
  pend : list upending
}.

(** On mount: the initial hooks and the pending [loadDocuments()] of the
    [useEffect]. *)
Definition mounted : ustate :=
  mkUState (JList []) false (-1) None None [] 0 [AwaitDocs false].

(** [clearInterval(stepInterval)] *)
Definition clear_interval (ivs : list nat) (iv : nat) : list nat :=
  List.filter (fun j => negb (Nat.eqb j iv)) ivs.

(** [onDrop(acceptedFiles)] up to its [await]: nothing without a first
    file; otherwise [setUploading(true)], [setError(null)],
    [setProcessingStep(0)], a new 2 s interval and the upload request. *)
Definition onDrop (s : ustate) (acceptedFiles : list string) : ustate :=
  match acceptedFiles with
  | [] => s
  | _ :: _ =>
      let iv := next_timer s in
      mkUState (documents s) true 0 (uploadedDoc s) None
               (intervals s ++ [iv]) (S iv) (pend s ++ [AwaitUpload iv])
  end.

(** The interval callback: [setProcessingStep((prev) => Math.min(prev + 1, 3))]. *)
Definition tick (s : ustate) : ustate :=
  mkUState (documents s) (uploading s) (Z.min (processingStep s + 1) 3)
           (uploadedDoc s) (error s) (intervals s) (next_timer s) (pend s).

(** The part of each continuation after its [await]; [None] when the
    outcome is not one this continuation can receive. *)
Definition uresume (s : ustate) (p : upending) (o : uoutcome) : option ustate :=
  match p, o with
  | AwaitUpload iv, Fulfilled result =>
      (* clearInterval; setProcessingStep(4); setUploadedDoc(result);
         await loadDocuments() *)
      Some (mkUState (documents s) (uploading s) 4 (Some result) (error s)
                     (clear_interval (intervals s) iv) (next_timer s)
                     (pend s ++ [AwaitDocs true]))
  | AwaitUpload iv, RejectedWith msg =>
      (* clearInterval; setError(err.message); setUploading(false);
         setProcessingStep(-1) *)
      Some (mkUState (documents s) false (-1) (uploadedDoc s) (Some msg)
                     (clear_interval (intervals s) iv) (next_timer s) (pend s))
  | AwaitDocs r, Fulfilled docs =>
      Some (mkUState docs (uploading s) (processingStep s) (uploadedDoc s) (error s)
                     (intervals s) (next_timer s)
                     (if r then pend s ++ [ResetTimer] else pend s))
  | AwaitDocs r, RejectedWith _ =>
      (* console.error: the error is swallowed *)
      Some (mkUState (documents s) (uploading s) (processingStep s) (uploadedDoc s)
                     (error s) (intervals s) (next_timer s)
                     (if r then pend s ++ [ResetTimer] else pend s))
  | ResetTimer, Fired =>
      Some (mkUState (documents s) false (-1) (uploadedDoc s) (error s)
                     (intervals s) (next_timer s) (pend s))
  | _, _ => None
  end.

Definition without_pending (s : ustate) (i : nat) : ustate :=
  mkUState (documents s) (uploading s) (processingStep s) (uploadedDoc s) (error s)
           (intervals s) (next_timer s) (delete i (pend s)).

(** The [i]-th pending continuation resumes with [o]. *)
Definition usettle (s : ustate) (i : nat) (o : uoutcome) : ustate :=
  match pend s !! i with
  | None => s
  | Some p =>
      match uresume (without_pending s i) p o with
      | Some s' => s'
      | None => s
      end
  end.

Inductive uevent :=
| DropFiles (acceptedFiles : list string)
| IntervalFires (iv : nat)
| USettle (i : nat) (o : uoutcome).

(** One event. The dropzone is replaced by the processing card and
    [useDropzone] is [disabled] while [uploading], so a drop then does
    nothing; only a running interval fires. *)
Definition ustep (s : ustate) (e : uevent) : ustate :=
  match e with
  | DropFiles fs => if uploading s then s else onDrop s fs
  | IntervalFires iv => if existsb (Nat.eqb iv) (intervals s) then tick s else s
  | USettle i o => usettle s i o
  end.

Definition urun (evs : list uevent) : ustate := fold_left ustep evs mounted.

(** The processing card: step [i] is done below [processingStep], active
    at it, waiting above it. *)
Inductive step_mark := StepDone | StepActive | StepWaiting.

Definition step_class (processingStep : Z) (i : Z) : step_mark :=
  if i <? processingStep then StepDone
  else if i =? processingStep then StepActive else StepWaiting.

(** [processingSteps.map((step, i) => ...)] over the five steps. *)
Definition processing_card (processingStep : Z) : list step_mark :=
  map (step_class processingStep) [0; 1; 2; 3; 4].

End UploadPage.

(* ------------------------------------------------------------------ *)
(** ** The API client (utils/api.js, [request]) *)

Module Api.
Import Views.

Definition API_BASE : string := "http://localhost:8000/api".

(** [options.body]: none, a [FormData] with the file, or a
    [JSON.stringify]'d object (kept unserialised). *)
Inductive req_body :=
| NoBody
| FormBody (file : string)
| JsonBody (v : jsval).

Record options := mkOptions {
  method : option string;
  body : req_body;
  headers : list (string * string)
}.

Definition is_form_data (b : req_body) : bool :=
  match b with FormBody _ => true | _ => false end.

(** [{...o, [k]: v}] on a string-valued object: an existing key keeps its
    place and takes the new value, a new key goes last. *)
Fixpoint obj_put (o : list (string * string)) (k v : string) : list (string * string) :=
  match o with
  | [] => [(k, v)]
  | (k', v') :: o' => if String.eqb k k' then (k, v) :: o' else (k', v') :: obj_put o' k v
  end.

(** [{...o, ...o2}] *)
Definition spread (o o2 : list (string * string)) : list (string * string) :=
  fold_left (fun acc kv => obj_put acc kv.1 kv.2) o2 o.

(** [o[k]] *)
Fixpoint prop (o : list (string * string)) (k : string) : option string :=
  match o with
  | [] => None
  | (k', v) :: o' => if String.eqb k k' then Some v else prop o' k
  end.

(** [headers: {...(options.body instanceof FormData ? {} :
    { 'Content-Type': 'application/json' }), ...options.headers}] *)
Definition config_headers (opts : options) : list (string * string) :=
  spread (if is_form_data (body opts) then [] else [("Content-Type", "application/json")])
         (headers opts).

Record config := mkConfig {
  url : string;
  c_method : option string;
  c_body : req_body;
  c_headers : list (string * string)
}.

(** [url = `${API_BASE}${endpoint}`] and [config = {...options, headers}]. *)
Definition request_config (endpoint : string) (opts : options) : config :=
  mkConfig (API_BASE ++ endpoint) (method opts) (body opts) (config_headers opts).


(** What [request] settles to: the parsed body; an [Error] thrown with the
    value passed to its constructor; or the rejection of [response.json()]
    on a non-JSON body of a successful response. *)
Inductive result :=
| Resolved (v : jsval)
| Thrown (error_arg : jsval)
| BodyNotJson.



End Api.

(* ------------------------------------------------------------------ *)
(** ** The Dashboard's topic radar (Upload.jsx, [Dashboard]) *)

Module Radar.





(** A bar of [barData]: [name] and [score]. *)
Record bar := mkBar {
  name : string;
  score : Q
}.

(** [q.topic?.substring(0, 10) || `Quiz ${i + 1}`]; [None] is a missing or
    [null] topic. *)
Definition bar_name (topic : option string) (i : nat) : string :=
  let fallback := ("Quiz " ++ pretty (Z.of_nat (i + 1)))%string in
  match topic with
  | Some t =>
      let n := String.substring 0 10 t in
      if String.eqb n EmptyString then fallback else n
  | None => fallback
  end.

(** [recent_quizzes.slice(0, 6).map((q, i) => ({ name: ..., score: q.score }))] *)
Definition bar_data (recent_quizzes : list (option string * Q)) : list bar :=
  imap (fun i q => mkBar (bar_name q.1 i) q.2) (take 6 recent_quizzes).

End Radar.

(* ================================================================== *)
(** * Properties *)

(** ** Mastery bounds *)

Lemma target_bounded (b : bool) (h : Z) :
  (0 <= Engine.target b (Engine.clamp_hints h) <= 100)%Q.
Proof.
  unfold Engine.target, Engine.clamp_hints.
  destruct b; [| split; discriminate].
  assert (Hh : (0 <= inject_Z (10 * Z.max 0 (Z.min 3 h)))%Q)
    by (change 0%Q with (inject_Z 0); rewrite <- Zle_Qle; lia).
  split.
  - eapply Qle_trans; [| apply Q.le_max_l]. discriminate.
  - apply Q.max_lub; [discriminate |].
    rewrite <- (Qplus_0_r 100) at 2.
    unfold Qminus. apply Qplus_le_r.
    rewrite <- (Qopp_involutive 0). apply Qopp_le_compat. exact Hh.
Qed.

Lemma clamp_mastery_bounded (x : Q) : (0 <= Engine.clamp_mastery x <= 100)%Q.
Proof.
  unfold Engine.clamp_mastery. split.
  - apply Q.le_max_l.
  - apply Q.max_lub; [discriminate | apply Q.le_min_l].
Qed.

Lemma mastery_update_bounded (m : gmap (string * string) Q) (ev : Engine.answer_event) :
  map_Forall (fun _ v => 0 <= v <= 100)%Q m ->
  map_Forall (fun _ v => 0 <= v <= 100)%Q (Engine.mastery_update m ev).
Proof.
  intros Hm. unfold Engine.mastery_update.
  destruct (m !! _); apply map_Forall_insert_2; auto using target_bounded, clamp_mastery_bounded.
Qed.

Lemma fold_mastery_bounded (evs : list Engine.answer_event) (m : gmap (string * string) Q) :
  map_Forall (fun _ v => 0 <= v <= 100)%Q m ->
  map_Forall (fun _ v => 0 <= v <= 100)%Q (fold_left Engine.mastery_update evs m).
Proof.
  revert m. induction evs as [| ev evs IH]; intros m Hm; simpl; auto.
  apply IH, mastery_update_bounded, Hm.
Qed.

Lemma topic_mastery_from_cache (user : string) (m : gmap (string * string) Q) (t : string * Q) :
  In t (Engine.topic_mastery user m) -> exists k, m !! k = Some t.2.
Proof.
  unfold Engine.topic_mastery. rewrite <- list_elem_of_In, list_elem_of_omap.
  intros [[k v] [Hin Hf]]. rewrite elem_of_map_to_list in Hin.
  destruct (String.eqb k.1 user); inversion Hf; subst. exists k. exact Hin.
Qed.

(** C1: from ease 2.5, repetition 0, interval 0, three quality-5 grades give
    (repetition 1, interval 1), (repetition 2, interval 6) and then interval
    [round(6 * new ease)]; every grade sets the ease to
    [max(1.3, ease + (0.1 - (5-q)*(0.08 + (5-q)*0.02)))]; a grade below 3
    resets repetition to 0 and interval to 1 day. *)
Theorem sm2_schedule_exact :
  let c1 := SM2.grade (SM2.mkCard 0 0 (5 # 2)) 5 in
  let c2 := SM2.grade c1 5 in
  let c3 := SM2.grade c2 5 in
  SM2.repetition c1 = 1 /\ SM2.interval c1 = 1 /\
  SM2.repetition c2 = 2 /\ SM2.interval c2 = 6 /\
  SM2.interval c3 = SM2.round (6 * SM2.ease c3)%Q /\
  (forall (c : SM2.card) (q : Z),
     SM2.ease (SM2.grade c q)
     = Qmax (13 # 10)
         (SM2.ease c + ((1 # 10) - inject_Z (5 - q)
                         * ((8 # 100) + inject_Z (5 - q) * (2 # 100))))%Q) /\
  (forall (c : SM2.card) (q : Z), q < 3 ->
     SM2.repetition (SM2.grade c q) = 0 /\ SM2.interval (SM2.grade c q) = 1).
Proof.
  cbv zeta. split; [reflexivity |]. split; [reflexivity |].
  split; [reflexivity |]. split; [reflexivity |]. split; [vm_compute; reflexivity |].
  split.
  - intros c q. unfold SM2.grade. destruct (q <? 3); reflexivity.
  - intros c q Hq. unfold SM2.grade.
    replace (q <? 3) with true by (symmetry; apply Z.ltb_lt; exact Hq).
    split; reflexivity.
Qed.

(** C2: over every sequence of answer events, after every step, each
    (user, topic) mastery lies in [0,100]; so each mastery bar the dashboard
    draws has a width in [0,100] and each value lies in the radar's fixed
    [0,100] domain. *)
Theorem mastery_within_bounds (evs : list Engine.answer_event) (n : nat) :
  let m := Engine.replay_mastery (take n evs) in
  map_Forall (fun _ v => 0 <= v <= 100)%Q m /\
  (forall (user : string) (t : string * Q), In t (Engine.topic_mastery user m) ->
     (0 <= Engine.mastery_bar_width t <= 100)%Q /\
     Engine.in_radar_domain (Engine.mastery_bar_width t)).
Proof.
  cbv zeta.
  assert (Hb := fold_mastery_bounded (take n evs) ∅ (map_Forall_empty _)).
  split; [exact Hb |].
  intros user t Hin. destruct (topic_mastery_from_cache _ _ _ Hin) as [k Hk].
  pose proof (Hb k _ Hk) as Hv.
  unfold Engine.in_radar_domain, Engine.mastery_bar_width, Engine.radar_domain.
  cbn beta in Hv. simpl. tauto.
Qed.

(** ** The quiz page: frame lemmas for the handlers *)

Module QuizFacts.
Import QuizPage.

(** The per-question inputs and the loaded quiz. *)
Definition inputs (s : state) :=
  (quiz s, currentIndex s, selectedOption s, shortAnswer s).

Lemma handleSubmit_frame (s : state) :
  inputs (handleSubmit s) = inputs s /\ hintLevel (handleSubmit s) = hintLevel s /\
  xpPopup (handleSubmit s) = xpPopup s /\ feedback (handleSubmit s) = feedback s.
Proof.
  unfold handleSubmit.
  destruct (current_question s); [| auto].
  destruct (submitting s); [auto |].
  destruct (negb (truthy _)); auto.
Qed.

Lemma requestHint_frame (s : state) :
  inputs (requestHint s) = inputs s /\ xpPopup (requestHint s) = xpPopup s /\
  hintLevel (requestHint s) = hintLevel s /\ feedback (requestHint s) = feedback s.
Proof.
  unfold requestHint.
  destruct (3 <? hintLevel s + 1); [auto |].
  destruct (current_question s); auto.
Qed.

Lemma resume_frame (s : state) (p : pending) (o : outcome) :
  inputs (resume s p o) = inputs s.
Proof.
  destruct p, o; try reflexivity; simpl.
  destruct (0 <? xp_earned r); reflexivity.
Qed.

Lemma settle_frame (s : state) (i : nat) (o : outcome) :
  inputs (settle s i o) = inputs s.
Proof.
  unfold settle. destruct (inflight s !! i); [| reflexivity].
  rewrite resume_frame. reflexivity.
Qed.

Lemma handleNext_xpPopup (s : state) : xpPopup (handleNext s) = xpPopup s.
Proof. unfold handleNext. destruct (_ <=? _)%nat; reflexivity. Qed.

(** A non-final [handleNext] moves to the next question, clears the
    per-question inputs and keeps the quiz and the results. *)
Lemma handleNext_frame (s : state) :
  (currentIndex s + 1 < length (quiz s))%nat ->
  let s' := handleNext s in
  quiz s' = quiz s /\ results s' = results s /\ completed s' = completed s /\
  currentIndex s' = S (currentIndex s) /\ selectedOption s' = None /\
  shortAnswer s' = EmptyString /\ feedback s' = None /\ hints s' = [] /\ hintLevel s' = 0 /\
  submitting s' = submitting s /\ xpPopup s' = xpPopup s /\
  sent s' = sent s /\ inflight s' = inflight s.
Proof.
  intros Hlt. unfold handleNext.
  replace (length (quiz s) <=? currentIndex s + 1)%nat with false
    by (symmetry; apply Nat.leb_gt; exact Hlt).
  simpl. repeat split; lia.
Qed.

(** ** Hint level *)

Definition hint_req_ok (r : request) : Prop :=
  match r with HintRequest _ l => 1 <= l <= 3 | AnswerRequest _ _ => True end.

Definition await_ok (p : pending) : Prop :=
  match p with AwaitHint l _ => 1 <= l <= 3 | _ => True end.

Definition hint_inv (s : state) : Prop :=
  0 <= hintLevel s <= 3 /\ Forall hint_req_ok (sent s) /\ Forall await_ok (inflight s).

Ltac hinv := unfold hint_inv; simpl; refine (conj _ (conj _ _)).

Lemma hint_inv_loaded (qs : list question) : hint_inv (loaded qs).
Proof. hinv; auto; lia. Qed.

Lemma handleSubmit_hint_inv (s : state) : hint_inv s -> hint_inv (handleSubmit s).
Proof.
  intros H. pose proof H as (H1 & H2 & H3). unfold handleSubmit.
  destruct (current_question s); [| exact H].
  destruct (submitting s); [exact H |].
  destruct (negb (truthy _)); [exact H |].
  hinv; [lia | |]; apply Forall_app; split; auto; repeat constructor.
Qed.

Lemma requestHint_hint_inv (s : state) : hint_inv s -> hint_inv (requestHint s).
Proof.
  intros H. pose proof H as (H1 & H2 & H3). unfold requestHint.
  destruct (3 <? hintLevel s + 1) eqn:E; [exact H |].
  apply Z.ltb_ge in E.
  destruct (current_question s); [| exact H].
  hinv; [lia | |]; apply Forall_app; split; auto;
    constructor; simpl; auto; lia.
Qed.

Lemma settle_hint_inv (s : state) (i : nat) (o : outcome) :
  hint_inv s -> hint_inv (settle s i o).
Proof.
  intros H. pose proof H as (H1 & H2 & H3). unfold settle.
  destruct (inflight s !! i) as [p |] eqn:Hp; [| exact H].
  assert (Hp' : await_ok p) by (eapply Forall_lookup_1; eauto).
  assert (Hd : Forall await_ok (delete i (inflight s))) by (apply Forall_delete; exact H3).
  destruct p, o; simpl in Hp'; try (hinv; auto; lia).
  simpl; destruct (0 <? xp_earned r); hinv; auto; try lia.
  apply Forall_app; split; auto.
Qed.

Lemma handleNext_hint_inv (s : state) : hint_inv s -> hint_inv (handleNext s).
Proof.
  intros H. pose proof H as (H1 & H2 & H3). unfold handleNext.
  destruct (_ <=? _)%nat; hinv; auto; lia.
Qed.

Lemma dispatch_hint_inv (s : state) (e : ui_event) : hint_inv s -> hint_inv (dispatch s e).
Proof.
  intros H. pose proof H as (H1 & H2 & H3). destruct e; simpl.
  - destruct (current_question s); [| exact H].
    destruct (_ && _); [hinv; auto | exact H].
  - destruct (current_question s); [| exact H].
    destruct (_ && _); [hinv; auto | exact H].
  - destruct (current_question s); [| exact H].
    destruct (_ && _); [apply handleSubmit_hint_inv, H | exact H].
  - destruct (_ && _); [apply handleSubmit_hint_inv, H | exact H].
  - destruct (hint_button_rendered s); [apply requestHint_hint_inv, H | exact H].
  - destruct (_ && _); [apply handleNext_hint_inv, H | exact H].
  - apply settle_hint_inv, H.
Qed.

Lemma run_hint_inv (qs : list question) (evs : list ui_event) : hint_inv (run qs evs).
Proof.
  unfold run. generalize (hint_inv_loaded qs). generalize (loaded qs).
  induction evs as [| e evs IH]; intros s Hs; simpl; auto.
  apply IH, dispatch_hint_inv, Hs.
Qed.

(** ** Answer inputs follow the question type *)

Definition input_inv (s : state) : Prop :=
  forall cq, current_question s = Some cq ->
    (is_mcq cq = true -> shortAnswer s = EmptyString) /\
    (is_mcq cq = false -> selectedOption s = None).

Lemma input_inv_loaded (qs : list question) : input_inv (loaded qs).
Proof. intros cq _. simpl. split; reflexivity. Qed.

Lemma input_inv_inputs (s s' : state) :
  inputs s' = inputs s -> input_inv s -> input_inv s'.
Proof.
  unfold inputs, input_inv, current_question. intros Heq H cq Hcq.
  injection Heq as Hq Hi Hsel Hsa. rewrite Hsel, Hsa.
  apply H. rewrite <- Hq, <- Hi. exact Hcq.
Qed.

Lemma dispatch_input_inv (s : state) (e : ui_event) : input_inv s -> input_inv (dispatch s e).
Proof.
  intros H. destruct e; simpl.
  - destruct (current_question s) as [cq |] eqn:Hcq; [| exact H].
    destruct (_ && _ && _ && _) eqn:Hc; [| exact H].
    apply andb_prop in Hc as [Hc _]. apply andb_prop in Hc as [Hc _].
    apply andb_prop in Hc as [_ Hm].
    intros cq' Hcq'. unfold current_question in *. simpl in *.
    rewrite Hcq in Hcq'. injection Hcq' as <-.
    split; [intros _; apply (H cq Hcq) | intros Hf]; [exact Hm | congruence].
  - destruct (current_question s) as [cq |] eqn:Hcq; [| exact H].
    destruct (_ && _ && _) eqn:Hc; [| exact H].
    apply andb_prop in Hc as [Hc _]. apply andb_prop in Hc as [_ Ht].
    apply String.eqb_eq in Ht.
    intros cq' Hcq'. unfold current_question in *. simpl in *.
    rewrite Hcq in Hcq'. injection Hcq' as <-.
    assert (Hm : is_mcq cq = false) by (unfold is_mcq; rewrite Ht; reflexivity).
    split; [congruence | intros _; apply (H cq Hcq), Hm].
  - destruct (current_question s); [| exact H].
    destruct (_ && _); [| exact H].
    apply (input_inv_inputs s); [apply handleSubmit_frame | exact H].
  - destruct (_ && _); [| exact H].
    apply (input_inv_inputs s); [apply handleSubmit_frame | exact H].
  - destruct (hint_button_rendered s); [| exact H].
    apply (input_inv_inputs s); [apply requestHint_frame | exact H].
  - destruct (_ && _); [| exact H].
    unfold handleNext. destruct (_ <=? _)%nat.
    + apply (input_inv_inputs s); [reflexivity | exact H].
    + intros cq _. simpl. split; reflexivity.
  - apply (input_inv_inputs s); [apply settle_frame | exact H].
Qed.

Lemma run_input_inv (qs : list question) (evs : list ui_event) : input_inv (run qs evs).
Proof.
  unfold run. generalize (input_inv_loaded qs). generalize (loaded qs).
  induction evs as [| e evs IH]; intros s Hs; simpl; auto.
  apply IH, dispatch_input_inv, Hs.
Qed.

(** ** The XP popup *)

Lemma dispatch_xpPopup (s : state) (e : ui_event) (x : Z) :
  xpPopup (dispatch s e) = Some x -> xpPopup s = Some x \/ 0 < x.
Proof.
  destruct e; simpl; [.. | intros Hx]; try (intros Hx; left; revert Hx).
  - destruct (current_question s); [destruct (_ && _ && _ && _) |]; auto.
  - destruct (current_question s); [destruct (_ && _ && _) |]; auto.
  - destruct (current_question s); [destruct (_ && _) |]; auto.
    destruct (handleSubmit_frame s) as (_ & _ & -> & _). auto.
  - destruct (_ && _); auto.
    destruct (handleSubmit_frame s) as (_ & _ & -> & _). auto.
  - destruct (hint_button_rendered s); auto.
    destruct (requestHint_frame s) as (_ & -> & _). auto.
  - destruct (_ && _); auto. rewrite handleNext_xpPopup. auto.
  - unfold settle in Hx. destruct (inflight s !! i) as [p |]; [| auto].
    destruct p, o; simpl in Hx; auto; try discriminate.
    destruct (0 <? xp_earned r) eqn:E; simpl in Hx; auto.
    injection Hx as <-. right. apply Z.ltb_lt in E. exact E.
Qed.

End QuizFacts.

(** ** XP *)

Lemma award_xp_nonneg (b : bool) (h : Z) : 0 <= Engine.award_xp b h Engine.base_xp.
Proof. unfold Engine.award_xp. destruct b; lia. Qed.

Lemma fold_xp_ge (evs : list Engine.answer_event) (t : Z) :
  t <= fold_left Engine.xp_step evs t.
Proof.
  revert t. induction evs as [| ev evs IH]; intros t; simpl; [lia |].
  specialize (IH (Engine.xp_step t ev)). unfold Engine.xp_step in *.
  pose proof (award_xp_nonneg (Engine.ev_correct ev) (Engine.clamp_hints (Engine.ev_hints ev))).
  lia.
Qed.

Lemma total_xp_prefix_mono (evs : list Engine.answer_event) (n m : nat) :
  (n <= m)%nat -> Engine.total_xp (take n evs) <= Engine.total_xp (take m evs).
Proof.
  intros Hnm. unfold Engine.total_xp.
  rewrite <- (take_drop n (take m evs)), fold_left_app, take_take.
  replace (n `min` m)%nat with n by lia.
  apply fold_xp_ge.
Qed.

(** C3: an answer earns [max(0, 10 - 2*hints)] XP when correct and 0 when
    not, so total XP never decreases along an event sequence; the page's
    notice "XP reduced by hintLevel*2" is exactly the discount of that rule
    at the page's hint level, and the XP popup only ever appears with a
    strictly positive [xp_earned]. *)
Theorem xp_award_rule :
  (forall (b : bool) (h : Z),
     Engine.award_xp b h Engine.base_xp = if b then Z.max 0 (10 - 2 * h) else 0) /\
  (forall (evs : list Engine.answer_event) (n : nat),
     Engine.total_xp (take n evs) <= Engine.total_xp (take (S n) evs)) /\
  (forall (qs : list QuizPage.question) (evs : list QuizPage.ui_event) (rem red : Z),
     QuizPage.xp_notice (QuizPage.run qs evs) = Some (rem, red) ->
     red = Engine.base_xp
           - Engine.award_xp true (QuizPage.hintLevel (QuizPage.run qs evs)) Engine.base_xp) /\
  (forall (s : QuizPage.state) (e : QuizPage.ui_event) (x : Z),
     QuizPage.xpPopup (QuizPage.dispatch s e) = Some x ->
     QuizPage.xpPopup s = Some x \/ 0 < x).
Proof.
  split; [| split; [| split]].
  - intros b h. unfold Engine.award_xp, Engine.base_xp. destruct b; [f_equal |]; lia.
  - intros evs n. apply total_xp_prefix_mono. lia.
  - intros qs evs rem red Hn.
    destruct (QuizFacts.run_hint_inv qs evs) as (Hh & _ & _).
    unfold QuizPage.xp_notice in Hn.
    destruct (_ && _ && _) eqn:Hc; [| discriminate].
    injection Hn as _ <-.
    apply andb_prop in Hc as [Hc _]. apply andb_prop in Hc as [_ Hp].
    apply Z.ltb_lt in Hp.
    unfold Engine.award_xp, Engine.base_xp. lia.
  - apply QuizFacts.dispatch_xpPopup.
Qed.

(** ** Hint level *)

(** C4: along every sequence of interactions the hint level stays in [0,3];
    every hint request the page sends asks for a level in 1..3;
    [requestHint] does nothing once the next level would exceed 3, and the
    hint button is not rendered at level 3. *)
Theorem hint_level_bounded :
  (forall (qs : list QuizPage.question) (evs : list QuizPage.ui_event),
     let s := QuizPage.run qs evs in
     0 <= QuizPage.hintLevel s <= 3 /\
     Forall (fun r => match r with
                      | QuizPage.HintRequest _ l => 1 <= l <= 3
                      | QuizPage.AnswerRequest _ _ => True
                      end) (QuizPage.sent s)) /\
  (forall s : QuizPage.state, 3 < QuizPage.hintLevel s + 1 -> QuizPage.requestHint s = s) /\
  (forall s : QuizPage.state, QuizPage.hintLevel s = 3 -> QuizPage.hint_button_rendered s = false).
Proof.
  split; [| split].
  - intros qs evs. cbv zeta.
    destruct (QuizFacts.run_hint_inv qs evs) as (H1 & H2 & _). split; [exact H1 | exact H2].
  - intros s Hs. unfold QuizPage.requestHint.
    replace (3 <? QuizPage.hintLevel s + 1) with true by (symmetry; apply Z.ltb_lt; exact Hs).
    reflexivity.
  - intros s Hs. unfold QuizPage.hint_button_rendered. rewrite Hs.
    apply andb_false_r.
Qed.

(** ** Advancing to the next question *)

(** C9 (failing input): on a two-question quiz, the user asks for a hint on
    question 1, answers it, gets the result and clicks Next before the hint
    arrives; the late hint then lands on question 2: hint level 1, the hint
    text shown, the notice "XP reduced by 2", and the next hint click asks
    the server for level 2 of question 2 although no hint was ever requested
    for it. *)
Theorem stale_hint_reaches_next_question :
  let qs := [QuizPage.mkQuestion 1 "mcq" (Some ["A"; "B"]);
             QuizPage.mkQuestion 2 "mcq" (Some ["C"; "D"])] in
  let s := QuizPage.run qs
             [QuizPage.ClickHint; QuizPage.ClickOption "A"; QuizPage.ClickSubmit;
              QuizPage.Settle 1 (QuizPage.AnswerOk (QuizPage.mkResult true 8));
              QuizPage.ClickNext;
              QuizPage.Settle 0 (QuizPage.HintOk "think")] in
  QuizPage.currentIndex s = 1%nat /\
  QuizPage.hintLevel s = 1 /\
  QuizPage.hints s = [(1, "think")] /\
  QuizPage.xp_notice s = Some (2, 2) /\
  QuizPage.sent s = [QuizPage.HintRequest 1 1; QuizPage.AnswerRequest 1 "A"] /\
  QuizPage.sent (QuizPage.dispatch s QuizPage.ClickHint)
    = QuizPage.sent s ++ [QuizPage.HintRequest 2 2].
Proof. vm_compute. repeat split. Qed.

(** ** Submitting without an answer *)

(** C10: [handleSubmit] leaves the state untouched (no request, no pending
    result, no feedback, results or XP change) while a submission is in
    flight, when no option is selected on a multiple-choice question, or
    when the text is empty on another question; and on every reachable
    state the submit button is disabled exactly when a submission is in
    flight or the answer [handleSubmit] would send is falsy. *)
Theorem submit_noop_without_answer :
  (forall (s : QuizPage.state) (cq : QuizPage.question),
     QuizPage.current_question s = Some cq ->
     QuizPage.submitting s = true
     \/ (QuizPage.is_mcq cq = true /\ QuizPage.selectedOption s = None)
     \/ (QuizPage.is_mcq cq = false /\ QuizPage.shortAnswer s = EmptyString) ->
     QuizPage.handleSubmit s = s) /\
  (forall (qs : list QuizPage.question) (evs : list QuizPage.ui_event) (cq : QuizPage.question),
     let s := QuizPage.run qs evs in
     QuizPage.current_question s = Some cq ->
     QuizPage.submit_disabled s
     = QuizPage.submitting s
       || negb (QuizPage.truthy (if QuizPage.is_mcq cq then QuizPage.selectedOption s
                                 else Some (QuizPage.shortAnswer s)))).
Proof.
  split.
  - intros s cq Hcq Hc. unfold QuizPage.handleSubmit. rewrite Hcq.
    destruct Hc as [Hs | [[Hm Hsel] | [Hm Hsa]]].
    + rewrite Hs. reflexivity.
    + destruct (QuizPage.submitting s); [reflexivity |].
      rewrite Hm, Hsel. reflexivity.
    + destruct (QuizPage.submitting s); [reflexivity |].
      rewrite Hm, Hsa. reflexivity.
  - intros qs evs cq. cbv zeta. intros Hcq.
    destruct (QuizFacts.run_input_inv qs evs cq Hcq) as [Hmcq Hsa].
    unfold QuizPage.submit_disabled.
    destruct (QuizPage.is_mcq cq).
    + rewrite (Hmcq eq_refl). simpl. rewrite andb_true_r. reflexivity.
    + rewrite (Hsa eq_refl). simpl. rewrite negb_involutive. reflexivity.
Qed.

(** ** The review queue *)

Module ReviewFacts.
Import Review.

Section Order.
Variable mastery_of : string -> Q.


Lemma before_total (a b : due_card) :
  before mastery_of a b = false -> before mastery_of b a = true.
Proof.
  unfold before. intros H.
  apply orb_false_iff in H as [H1 H2]. apply Z.ltb_ge in H1.
  destruct (Z.eq_dec (due_timestamp a) (due_timestamp b)) as [He | Hne].
  - rewrite He, Z.eqb_refl in H2. simpl in H2.
    rewrite He, Z.eqb_refl, Z.ltb_irrefl. simpl.
    apply Qle_bool_iff. apply Qlt_le_weak, Qnot_le_lt.
    intros Hle. apply Qle_bool_iff in Hle. congruence.
  - apply orb_true_iff. left. apply Z.ltb_lt. lia.
Qed.

Lemma insert_card_In (c x : due_card) (q : list due_card) :
  In x (insert_card mastery_of c q) <-> c = x \/ In x q.
Proof.
  induction q as [| d q IH]; simpl; [tauto |].
  destruct (before mastery_of c d); simpl; [tauto |]. rewrite IH. tauto.
Qed.

Lemma sort_cards_In (x : due_card) (q : list due_card) :
  In x (sort_cards mastery_of q) <-> In x q.
Proof.
  induction q as [| c q IH]; simpl; [tauto |].
  rewrite insert_card_In, IH. tauto.
Qed.

Lemma insert_card_HdRel (d c : due_card) (q : list due_card) :
  HdRel (in_order mastery_of) d q -> in_order mastery_of d c -> HdRel (in_order mastery_of) d (insert_card mastery_of c q).
Proof.
  intros Hq Hdc. destruct q as [| e q]; simpl; [constructor; exact Hdc |].
  destruct (before mastery_of c e); constructor; [exact Hdc |].
  inversion Hq; assumption.
Qed.

Lemma insert_card_sorted (c : due_card) (q : list due_card) :
  Sorted (in_order mastery_of) q -> Sorted (in_order mastery_of) (insert_card mastery_of c q).
Proof.
  induction q as [| d q IH]; intros Hs; simpl.
  - repeat constructor.
  - destruct (before mastery_of c d) eqn:E.
    + constructor; [exact Hs | constructor; exact E].
    + apply Sorted_inv in Hs as [Hs Hh]. constructor; [apply IH, Hs |].
      apply insert_card_HdRel; [exact Hh | apply before_total, E].
Qed.

Lemma sort_cards_sorted (q : list due_card) : Sorted (in_order mastery_of) (sort_cards mastery_of q).
Proof.
  induction q as [| c q IH]; simpl; [constructor |].
  apply insert_card_sorted, IH.
Qed.

End Order.
End ReviewFacts.

(** C5: [due_queue(user, now)] holds exactly the cards with
    [due_timestamp <= now], in order of due timestamp ascending and, on equal
    timestamps, of lowest owning-topic mastery; a due card stays in the queue
    for every later [now] while its due timestamp is unchanged (not
    re-graded); the dashboard shows the first three entries in the order
    received. *)
Theorem due_queue_correct (mastery_of : string -> Q) (cards : list Review.due_card) (now : Z) :
  let q := Review.due_queue mastery_of cards now in
  (forall c : Review.due_card, In c q <-> In c cards /\ Review.due_timestamp c <= now) /\
  Sorted (Review.in_order mastery_of) q /\
  (forall (now' : Z) (c : Review.due_card), now <= now' -> In c q ->
     In c (Review.due_queue mastery_of cards now')) /\
  (forall i : nat, (i < 3)%nat ->
     Review.render_review_queue q !! i = Review.render_item <$> q !! i).
Proof.
  cbv zeta. unfold Review.due_queue.
  split; [| split; [| split]].
  - intros c. rewrite ReviewFacts.sort_cards_In, filter_In, Z.leb_le. tauto.
  - apply ReviewFacts.sort_cards_sorted.
  - intros now' c Hle. rewrite !ReviewFacts.sort_cards_In, !filter_In, !Z.leb_le.
    intros [Hin Hd]. split; [exact Hin | lia].
  - intros i Hi. unfold Review.render_review_queue.
    rewrite list_lookup_fmap, lookup_take_lt; [reflexivity | lia].
Qed.

(** ** Level *)

Lemma level_mono (x y : Z) : 0 <= x <= y -> Engine.level x <= Engine.level y.
Proof.
  intros Hxy. unfold Engine.level.
  assert (x / 100 <= y / 100) by (apply Z.div_le_mono; lia).
  pose proof (Z.sqrt_le_mono (x / 100) (y / 100) H). lia.
Qed.

(** The XP into the current level and the span of the level. *)
Lemma level_progress_parts (xp : Z) : 0 <= xp ->
  0 <= xp - Engine.xp_for_level (Engine.level xp) /\
  xp - Engine.xp_for_level (Engine.level xp)
  < Engine.xp_for_level (Engine.level xp + 1) - Engine.xp_for_level (Engine.level xp).
Proof.
  intros Hxp. unfold Engine.xp_for_level, Engine.level.
  set (n := xp / 100). set (r := Z.sqrt n).
  assert (Hn : 0 <= n) by (apply Z.div_pos; lia).
  destruct (Z.sqrt_spec n Hn) as [Hlo Hhi]. fold r in Hlo, Hhi.
  assert (Hd : 100 * n <= xp < 100 * (n + 1)).
  { pose proof (Z.div_mod xp 100 ltac:(lia)).
    pose proof (Z.mod_pos_bound xp 100 ltac:(lia)). fold n in H. lia. }
  replace (r + 1 - 1) with r by lia. replace (r + 1 + 1 - 1) with (r + 1) by lia.
  nia.
Qed.

(** C6: [level(total_xp) = floor(sqrt(total_xp/100)) + 1] never decreases
    from [total_xp - 1] to [total_xp], the level progress fraction lies in
    [0,1), and the dashboard's level bar width [level_progress * 100] lies
    in [0,100), never reaching full width. *)
Theorem level_monotone_progress_bounded (xp : Z) (Hxp : 0 <= xp) :
  (1 <= xp -> Engine.level (xp - 1) <= Engine.level xp) /\
  (0 <= Engine.level_progress xp < 1)%Q /\
  (0 <= Engine.level_bar_width (Engine.level_progress xp) < 100)%Q.
Proof.
  destruct (level_progress_parts xp Hxp) as [Ha Hb].
  set (a := xp - Engine.xp_for_level (Engine.level xp)) in *.
  set (d := Engine.xp_for_level (Engine.level xp + 1)
            - Engine.xp_for_level (Engine.level xp)) in *.
  assert (Hd : (0 < inject_Z d)%Q)
    by (change 0%Q with (inject_Z 0); rewrite <- Zlt_Qlt; lia).
  assert (Hp : (0 <= inject_Z a / inject_Z d < 1)%Q).
  { split.
    - apply Qle_shift_div_l; [exact Hd |]. rewrite Qmult_0_l.
      change 0%Q with (inject_Z 0). rewrite <- Zle_Qle. exact Ha.
    - apply Qlt_shift_div_r; [exact Hd |]. rewrite Qmult_1_l.
      rewrite <- Zlt_Qlt. exact Hb. }
  split; [| split].
  - intros H1. apply level_mono. lia.
  - exact Hp.
  - unfold Engine.level_bar_width, Engine.level_progress. fold a d.
    destruct Hp as [Hp0 Hp1].
    destruct (Qeq_bool _ 0); split.
    + discriminate.
    + reflexivity.
    + rewrite <- (Qmult_0_l 100). apply Qmult_le_compat_r; [exact Hp0 | discriminate].
    + rewrite <- (Qmult_1_l 100) at 2. apply Qmult_lt_compat_r; [reflexivity | exact Hp1].
Qed.

Lemma level_monotone_progress_bounded_witness :
  0 <= 250 /\
  ((1 <= 250 -> Engine.level (250 - 1) <= Engine.level 250) /\
   (0 <= Engine.level_progress 250 < 1)%Q /\
   (0 <= Engine.level_bar_width (Engine.level_progress 250) < 100)%Q).
Proof. split; [lia | apply (level_monotone_progress_bounded 250); lia]. Defined.

(** ** The dashboard and navbar views *)

(** C7 (counterexample): at 250 XP (level 2, 150 XP into the level, the bar
    half full) the view listed by the spec lacks [documents_count], which the
    Dashboard reads with no fallback, and lacks [stats.xp_in_level] and
    [stats.xp_for_next], so the level labels show their fallbacks
    "0 XP" and "100 XP needed". *)
Lemma dashboard_fields_do_not_suffice :
  let data := Views.dashboard_response (Views.mkProgress 250 3 5 40 30) 75 [] [] [] in
  In "documents_count" Views.dashboard_top_reads /\
  ~ In "documents_count" (Views.keys data) /\
  Views.documents_label data = Views.JUndefined /\
  Views.level_labels data = (Views.num 0, Views.num 100) /\
  Engine.level 250 = 2 /\
  250 - Engine.xp_for_level (Engine.level 250) = 150 /\
  Qeq_bool (Engine.level_progress 250) (1 # 2) = true.
Proof.
  cbv zeta. split; [simpl; tauto |]. split; [simpl; intuition discriminate |].
  split; [reflexivity |]. split; [reflexivity |].
  split; [reflexivity |]. split; [reflexivity |]. reflexivity.
Qed.

(** C7 (amended): the dashboard view has the top-level fields
    topic_mastery, recent_quizzes, review_queue and stats, and stats has
    exactly xp, level, level_progress, streak, longest_streak, accuracy,
    total_questions and total_correct; every field the Dashboard reads is
    one of these, or stats.xp_in_level, stats.xp_for_next or the top-level
    documents_count, which the view lacks: the level labels then always
    show the fallbacks 0 and 100 and the documents count is undefined. *)
Theorem dashboard_view_fields (p : Views.progress) (accuracy : Q)
    (topic_mastery recent_quizzes review_queue : list Views.jsval) :
  let data := Views.dashboard_response p accuracy topic_mastery recent_quizzes review_queue in
  Views.keys data = ["topic_mastery"; "recent_quizzes"; "review_queue"; "stats"] /\
  Views.keys (Views.get data "stats")
    = ["xp"; "level"; "level_progress"; "streak"; "longest_streak"; "accuracy";
       "total_questions"; "total_correct"] /\
  (forall k, In k Views.dashboard_top_reads ->
     In k (Views.keys data) \/ k = "documents_count") /\
  (forall k, In k Views.dashboard_stats_reads ->
     In k (Views.keys (Views.get data "stats")) \/ k = "xp_in_level" \/ k = "xp_for_next") /\
  Views.level_labels data = (Views.num 0, Views.num 100) /\
  Views.documents_label data = Views.JUndefined.
Proof.
  cbv zeta. split; [reflexivity |]. split; [reflexivity |].
  split; [| split; [| split; reflexivity]].
  - intros k Hk. simpl in Hk |- *. intuition.
  - intros k Hk. simpl in Hk |- *. intuition.
Qed.

(** C8: [stats(user)] has exactly the fields xp, streak and level, the ones
    the navbar reads and shows; before any fetch it shows xp 0, streak 0 and
    level 1; a rejected fetch keeps the previous values; a fulfilled one
    shows the user's xp, streak and level; and every change of route issues
    a new fetch. *)
Theorem navbar_reads_stats (p : Views.progress) (path : string) :
  Views.keys (Views.stats_response p) = Views.navbar_reads /\
  Views.navbar_display (Views.navbar_init path) = [Views.num 0; Views.num 0; Views.num 1] /\
  (forall n : Views.navbar, Views.navbar_step n (Views.StatsFetched None) = n) /\
  (forall n : Views.navbar,
     Views.navbar_display
       (Views.navbar_step n (Views.StatsFetched (Some (Views.stats_response p))))
     = [Views.num (Views.xp p); Views.num (Views.streak p);
        Views.num (Engine.level (Views.xp p))]) /\
  (forall (n : Views.navbar) (path' : string), path' <> Views.pathname n ->
     Views.fetches (Views.navbar_step n (Views.RouteChange path')) = S (Views.fetches n)).
Proof.
  split; [reflexivity |]. split; [reflexivity |].
  split; [intros n; reflexivity |]. split; [intros n; reflexivity |].
  intros n path' Hne. simpl.
  destruct (String.eqb path' (Views.pathname n)) eqn:E.
  - apply String.eqb_eq in E. contradiction.
  - reflexivity.
Qed.

(* ================================================================== *)
(** * Further properties of the client code *)

(** ** Quiz page: submissions, results and completion *)

Module QuizRunFacts.
Import QuizPage QuizScreen.

Definition fb (s : state) : nat := match feedback s with Some _ => 1 | None => 0 end.

Definition req_ok (qs : list question) (r : request) : Prop :=
  match r with
  | HintRequest qid _ => In qid (map q_id qs)
  | AnswerRequest qid a => In qid (map q_id qs) /\ a <> EmptyString
  end.

Definition await_matches (s : state) (p : pending) : Prop :=
  match p with AwaitAnswer rs => rs = results s | _ => True end.

Definition run_inv (qs : list question) (s : state) : Prop :=
  quiz s = qs /\
  ((currentIndex s < length qs)%nat \/ (qs = [] /\ currentIndex s = 0%nat)) /\
  answers_in_flight s = (if submitting s then 1 else 0)%nat /\
  Forall (await_matches s) (inflight s) /\
  (submitting s = true -> feedback s = None) /\
  length (results s) = (currentIndex s + fb s)%nat /\
  (completed s = true -> feedback s <> None /\ S (currentIndex s) = length qs) /\
  Forall (req_ok qs) (sent s).

Ltac rinv := unfold run_inv; simpl;
  refine (conj _ (conj _ (conj _ (conj _ (conj _ (conj _ (conj _ _))))))).

Lemma count_delete (l : list pending) (i : nat) (p : pending) :
  l !! i = Some p ->
  length (List.filter is_await_answer l)
  = (length (List.filter is_await_answer (delete i l)) + if is_await_answer p then 1 else 0)%nat.
Proof.
  revert i. induction l as [| x l IH]; intros [| i] Hi; simpl in Hi; try discriminate.
  - injection Hi as ->. simpl. destruct (is_await_answer p); simpl; lia.
  - simpl. destruct (is_await_answer x); simpl; rewrite (IH i Hi); lia.
Qed.

Lemma run_inv_loaded (qs : list question) : run_inv qs (loaded qs).
Proof.
  rinv; try reflexivity; auto; try (intros; discriminate).
  destruct qs; [right; auto | left; simpl; lia].
Qed.

Lemma current_question_in (qs : list question) (s : state) (cq : question) :
  quiz s = qs -> current_question s = Some cq -> In (q_id cq) (map q_id qs).
Proof.
  unfold current_question. intros <- Hcq. apply in_map.
  apply list_elem_of_In. eapply list_elem_of_lookup_2. exact Hcq.
Qed.

Lemma Forall_await_same (s s' : state) (l : list pending) :
  results s' = results s -> Forall (await_matches s) l -> Forall (await_matches s') l.
Proof.
  intros Hr Hl. eapply Forall_impl; [exact Hl |].
  intros [] Hp; simpl in *; auto. congruence.
Qed.

Lemma handleSubmit_run_inv (qs : list question) (s : state) :
  run_inv qs s -> no_feedback s = true -> run_inv qs (handleSubmit s).
Proof.
  intros H Hnf. pose proof H as (H1 & H2 & H3 & H4 & H5 & H6 & H7 & H8).
  unfold handleSubmit.
  destruct (current_question s) as [cq |] eqn:Hcq; [| exact H].
  destruct (submitting s) eqn:Hs; [exact H |].
  destruct (negb (truthy _)) eqn:Ht; [exact H |].
  unfold no_feedback in Hnf. destruct (feedback s) eqn:Hf; [discriminate |].
  rinv.
  - exact H1.
  - exact H2.
  - unfold answers_in_flight in *. simpl. rewrite List.filter_app, length_app, H3. reflexivity.
  - apply Forall_app. split; [| repeat constructor].
    apply (Forall_await_same s); [reflexivity | exact H4].
  - intros _. exact Hf.
  - unfold fb in *. simpl. rewrite Hf in H6 |- *. exact H6.
  - rewrite Hf. exact H7.
  - apply Forall_app. split; [exact H8 |]. constructor; [| constructor].
    split; [eapply current_question_in; eauto |].
    destruct (if is_mcq cq then selectedOption s else Some (shortAnswer s)) as [a |];
      simpl in Ht |- *; [| discriminate].
    intros ->. discriminate.
Qed.

Lemma requestHint_run_inv (qs : list question) (s : state) :
  run_inv qs s -> run_inv qs (requestHint s).
Proof.
  intros H. pose proof H as (H1 & H2 & H3 & H4 & H5 & H6 & H7 & H8).
  unfold requestHint.
  destruct (3 <? hintLevel s + 1); [exact H |].
  destruct (current_question s) as [cq |] eqn:Hcq; [| exact H].
  rinv.
  - exact H1.
  - exact H2.
  - unfold answers_in_flight in *. simpl. rewrite List.filter_app, length_app, H3. simpl. lia.
  - apply Forall_app. split; [| repeat constructor].
    apply (Forall_await_same s); [reflexivity | exact H4].
  - exact H5.
  - exact H6.
  - exact H7.
  - apply Forall_app. split; [exact H8 |]. constructor; [| constructor].
    eapply current_question_in; eauto.
Qed.

Lemma handleNext_run_inv (qs : list question) (s : state) :
  run_inv qs s -> question_view s = true -> feedback s <> None -> run_inv qs (handleNext s).
Proof.
  intros H Hv Hf. pose proof H as (H1 & H2 & H3 & H4 & H5 & H6 & H7 & H8).
  unfold question_view in Hv. apply andb_prop in Hv as [Hc Hl].
  apply negb_true_iff in Hc. apply Nat.ltb_lt in Hl.
  assert (Hlt : (currentIndex s < length qs)%nat).
  { destruct H2 as [? | [Hq _]]; [auto | subst; rewrite Hq in Hl; simpl in Hl; lia]. }
  unfold handleNext.
  destruct (length (quiz s) <=? currentIndex s + 1)%nat eqn:E.
  - apply Nat.leb_le in E. rinv.
    + exact H1.
    + exact H2.
    + exact H3.
    + apply (Forall_await_same s); [reflexivity | exact H4].
    + exact H5.
    + exact H6.
    + intros _. split; [exact Hf | subst; lia].
    + exact H8.
  - apply Nat.leb_gt in E. rinv.
    + exact H1.
    + left. subst. lia.
    + destruct (submitting s) eqn:Hs; [exfalso; apply Hf, H5; reflexivity |]. exact H3.
    + apply (Forall_await_same s); [reflexivity | exact H4].
    + intros _. reflexivity.
    + unfold fb in *. destruct (feedback s); [| contradiction]. simpl. lia.
    + rewrite Hc. discriminate.
    + exact H8.
Qed.

Lemma no_answers_await (s : state) (l : list pending) :
  length (List.filter is_await_answer l) = 0%nat -> Forall (await_matches s) l.
Proof.
  induction l as [| x l IH]; intros Hl; constructor.
  - destruct x; simpl in *; try exact I. discriminate.
  - apply IH. destruct x; simpl in *; auto. discriminate.
Qed.

Lemma settle_run_inv (qs : list question) (s : state) (i : nat) (o : outcome) :
  run_inv qs s -> run_inv qs (settle s i o).
Proof.
  intros H. pose proof H as (H1 & H2 & H3 & H4 & H5 & H6 & H7 & H8).
  unfold settle. destruct (inflight s !! i) as [p |] eqn:Hp; [| exact H].
  pose proof (count_delete _ _ _ Hp) as Hc.
  pose proof (Forall_lookup_1 _ _ _ _ H4 Hp) as Hm.
  pose proof (Forall_delete _ _ i H4) as Hd.
  unfold answers_in_flight in H3.
  destruct p as [lvl hs | rs |]; simpl in Hc.
  - destruct o; simpl; rinv; try assumption;
      try (unfold answers_in_flight; simpl; lia);
      apply (Forall_await_same s); auto.
  - simpl in Hm. subst rs.
    destruct (submitting s) eqn:Hs; [| lia].
    specialize (H5 eq_refl).
    assert (Hcomp : completed s = false).
    { destruct (completed s); [| reflexivity]. destruct (H7 eq_refl) as [[] _]. exact H5. }
    assert (Hz : length (List.filter is_await_answer (delete i (inflight s))) = 0%nat) by lia.
    destruct o as [| r | |]; simpl.
    1,3,4: rinv; try assumption;
      try (unfold answers_in_flight; simpl; lia);
      try (apply (Forall_await_same s); auto);
      intros; discriminate.
    unfold fb in H6. rewrite H5 in H6.
    destruct (0 <? xp_earned r); simpl; rinv; try assumption;
      try (unfold answers_in_flight; simpl; rewrite ?List.filter_app, ?length_app; simpl; lia);
      try (apply Forall_app; split; [apply no_answers_await; exact Hz | repeat constructor]);
      try (apply no_answers_await; exact Hz);
      try (intros; discriminate);
      try (unfold fb; simpl; rewrite length_app; simpl; lia);
      rewrite Hcomp; discriminate.
  - simpl; rinv; try assumption;
      try (unfold answers_in_flight; simpl; lia);
      apply (Forall_await_same s); auto.
Qed.

Lemma dispatch_run_inv (qs : list question) (s : state) (e : ui_event) :
  run_inv qs s -> run_inv qs (dispatch s e).
Proof.
  intros H. pose proof H as (H1 & H2 & H3 & H4 & H5 & H6 & H7 & H8).
  destruct e as [opt | text | | | | | i o]; simpl.
  - destruct (current_question s); [| exact H].
    destruct (_ && _); [| exact H].
    rinv; try assumption; apply (Forall_await_same s); auto.
  - destruct (current_question s); [| exact H].
    destruct (_ && _); [| exact H].
    rinv; try assumption; apply (Forall_await_same s); auto.
  - destruct (current_question s); [| exact H].
    destruct (question_view s && _ && no_feedback s) eqn:E; [| exact H].
    apply handleSubmit_run_inv; [exact H |].
    apply andb_prop in E as [_ E]. exact E.
  - destruct (question_view s && no_feedback s && _) eqn:E; [| exact H].
    apply handleSubmit_run_inv; [exact H |].
    apply andb_prop in E as [E _]. apply andb_prop in E as [_ E]. exact E.
  - destruct (hint_button_rendered s); [apply requestHint_run_inv |]; exact H.
  - destruct (question_view s && negb (no_feedback s)) eqn:E; [| exact H].
    apply andb_prop in E as [Ev Ef].
    apply handleNext_run_inv; [exact H | exact Ev |].
    unfold no_feedback in Ef. destruct (feedback s); [discriminate | discriminate].
  - apply settle_run_inv. exact H.
Qed.

Lemma run_inv_fold (qs : list question) (evs : list ui_event) (s : state) :
  run_inv qs s -> run_inv qs (fold_left dispatch evs s).
Proof.
  revert s. induction evs as [| e evs IH]; intros s H; simpl; [exact H |].
  apply IH, dispatch_run_inv, H.
Qed.

Lemma run_run_inv (qs : list question) (evs : list ui_event) : run_inv qs (run qs evs).
Proof. apply run_inv_fold, run_inv_loaded. Qed.

(** Once the results screen is shown, no event changes what it shows. *)
Lemma dispatch_completed (qs : list question) (s : state) (e : ui_event) :
  run_inv qs s -> completed s = true ->
  let s' := dispatch s e in
  completed s' = true /\ results s' = results s /\ currentIndex s' = currentIndex s /\
  feedback s' = feedback s /\ sent s' = sent s.
Proof.
  intros H Hc. pose proof H as (H1 & H2 & H3 & H4 & H5 & H6 & H7 & H8).
  assert (Hqv : question_view s = false) by (unfold question_view; rewrite Hc; reflexivity).
  destruct (H7 Hc) as [Hf _].
  assert (Hs : submitting s = false).
  { destruct (submitting s); [| reflexivity]. exfalso. apply Hf, H5. reflexivity. }
  destruct e as [opt | text | | | | | i o]; cbv zeta; simpl.
  - destruct (current_question s); [rewrite Hqv |]; auto.
  - destruct (current_question s); [rewrite Hqv |]; auto.
  - destruct (current_question s); [rewrite Hqv |]; auto.
  - rewrite Hqv. auto.
  - unfold hint_button_rendered. rewrite Hqv. auto.
  - rewrite Hqv. auto.
  - unfold settle. destruct (inflight s !! i) as [p |] eqn:Hp; [| auto].
    destruct p as [lvl hs | rs |].
    + destruct o; simpl; auto.
    + exfalso. pose proof (count_delete _ _ _ Hp) as Hcd.
      unfold answers_in_flight in H3. rewrite Hs in H3. simpl in Hcd. lia.
    + simpl. auto.
Qed.

Lemma fold_completed (qs : list question) (evs : list ui_event) (s : state) :
  run_inv qs s -> completed s = true ->
  let s' := fold_left dispatch evs s in
  completed s' = true /\ results s' = results s /\ currentIndex s' = currentIndex s /\
  feedback s' = feedback s /\ sent s' = sent s.
Proof.
  revert s. induction evs as [| e evs IH]; intros s H Hc; cbv zeta; simpl; [auto |].
  destruct (dispatch_completed qs s e H Hc) as (E1 & E2 & E3 & E4 & E5).
  destruct (IH (dispatch s e) (dispatch_run_inv qs s e H) E1) as (F1 & F2 & F3 & F4 & F5).
  repeat split; congruence.
Qed.

Lemma total_correct_le (rs : list answer_result) : (total_correct rs <= length rs)%nat.
Proof.
  unfold total_correct. induction rs as [| r rs IH]; simpl; [lia |].
  destruct (is_correct r); simpl; lia.
Qed.

(** [c / n * 100] for [0 <= c <= n], [0 < n], lies in [0, 100]. *)
Lemma ratio_percent_bounds (c n : Z) :
  0 <= c <= n -> 0 < n ->
  (0 <= inject_Z c / inject_Z n * 100 <= 100)%Q.
Proof.
  intros Hc Hn.
  assert (Hn' : (0 < inject_Z n)%Q) by (change 0%Q with (inject_Z 0); rewrite <- Zlt_Qlt; lia).
  split.
  - apply (Qmult_le_0_compat (inject_Z c / inject_Z n) 100); [| discriminate].
    apply Qle_shift_div_l; [exact Hn' |].
    rewrite Qmult_0_l. change 0%Q with (inject_Z 0). rewrite <- Zle_Qle. lia.
  - apply (Qle_trans _ (1 * 100)); [| discriminate].
    apply Qmult_le_compat_r; [| discriminate].
    apply Qle_shift_div_r; [exact Hn' |].
    rewrite Qmult_1_l. rewrite <- Zle_Qle. lia.
Qed.

Lemma js_round_bounds (x : Q) : (0 <= x <= 100)%Q -> 0 <= js_round x <= 100.
Proof.
  intros [H0 H1]. unfold js_round. split.
  - change 0 with (Qfloor 0). apply Qfloor_resp_le.
    apply (Qle_trans _ x); [exact H0 |].
    rewrite <- (Qplus_0_r x) at 1. apply Qplus_le_r. discriminate.
  - change 100 with (Qfloor (201 # 2)). apply Qfloor_resp_le.
    apply (Qle_trans _ (100 + (1 # 2))); [| discriminate].
    apply Qplus_le_l. exact H1.
Qed.

Lemma score_percent_some (rs : list answer_result) :
  rs <> [] -> exists p, score_percent rs = Some p /\ 0 <= p <= 100.
Proof.
  intros Hne. unfold score_percent.
  destruct (length rs) eqn:E; [destruct rs; [contradiction | discriminate] |].
  eexists. split; [reflexivity |]. apply js_round_bounds.
  rewrite <- E. apply ratio_percent_bounds; [| lia].
  pose proof (total_correct_le rs). lia.
Qed.

(** The feedback box shows the last entry of [results]. *)
Definition fb_last (s : state) : Prop :=
  forall r, feedback s = Some r -> last (results s) = Some r.

Lemma fb_last_same (s s' : state) :
  feedback s' = feedback s -> results s' = results s -> fb_last s -> fb_last s'.
Proof. unfold fb_last. intros -> ->. auto. Qed.

Lemma handleSubmit_fb_results (s : state) :
  feedback (handleSubmit s) = feedback s /\ results (handleSubmit s) = results s.
Proof.
  unfold handleSubmit. destruct (current_question s); [| auto].
  destruct (submitting s); [auto |]. destruct (negb (truthy _)); auto.
Qed.

Lemma requestHint_fb_results (s : state) :
  feedback (requestHint s) = feedback s /\ results (requestHint s) = results s.
Proof.
  unfold requestHint. destruct (3 <? hintLevel s + 1); [auto |].
  destruct (current_question s); auto.
Qed.

Lemma dispatch_fb_last (s : state) (e : ui_event) : fb_last s -> fb_last (dispatch s e).
Proof.
  intros H. destruct e as [opt | text | | | | | i o]; simpl.
  - destruct (current_question s); [destruct (_ && _) |]; auto.
  - destruct (current_question s); [destruct (_ && _) |]; auto.
  - destruct (current_question s); [destruct (_ && _) |]; auto.
    destruct (handleSubmit_fb_results s) as [E1 E2]. exact (fb_last_same s _ E1 E2 H).
  - destruct (_ && _); auto.
    destruct (handleSubmit_fb_results s) as [E1 E2]. exact (fb_last_same s _ E1 E2 H).
  - destruct (hint_button_rendered s); auto.
    destruct (requestHint_fb_results s) as [E1 E2]. exact (fb_last_same s _ E1 E2 H).
  - destruct (_ && _); auto. unfold handleNext.
    destruct (_ <=? _)%nat; [exact H | intros r Hr; discriminate].
  - unfold settle. destruct (inflight s !! i) as [p |]; [| exact H].
    destruct p as [lvl hs | rs |], o as [t | r | |]; simpl; try exact H.
    destruct (0 <? xp_earned r); intros r' Hr; injection Hr as <-; simpl; apply last_snoc.
Qed.

Lemma run_fb_last (qs : list question) (evs : list ui_event) : fb_last (run qs evs).
Proof.
  unfold run. assert (H0 : fb_last (loaded qs)) by (intros r Hr; discriminate).
  revert H0. generalize (loaded qs).
  induction evs as [| e evs IH]; intros s Hs; simpl; [exact Hs |].
  apply IH, dispatch_fb_last, Hs.
Qed.
End QuizRunFacts.

(** The progress bar of a quiz with questions stays below 100%: the index
    of the question shown is always below the number of questions. *)
Theorem quiz_progress_below_full (qs : list QuizPage.question) (evs : list QuizPage.ui_event)
    (Hq : (0 < length qs)%nat) :
  let s := QuizPage.run qs evs in
  (QuizPage.currentIndex s < length (QuizPage.quiz s))%nat /\
  (0 <= QuizScreen.progress s < 100)%Q.
Proof.
  cbv zeta. destruct (QuizRunFacts.run_run_inv qs evs) as (H1 & H2 & _).
  assert (Hlt : (QuizPage.currentIndex (QuizPage.run qs evs) < length qs)%nat).
  { destruct H2 as [H2 | [-> _]]; [exact H2 | simpl in Hq; lia]. }
  rewrite H1. split; [exact Hlt |].
  unfold QuizScreen.progress. rewrite H1.
  set (i := Z.of_nat (QuizPage.currentIndex (QuizPage.run qs evs))).
  set (n := Z.of_nat (length qs)).
  assert (Hin : 0 <= i < n) by (unfold i, n; lia).
  assert (Hn' : (0 < inject_Z n)%Q) by (change 0%Q with (inject_Z 0); rewrite <- Zlt_Qlt; lia).
  split.
  - apply (QuizRunFacts.ratio_percent_bounds i n); lia.
  - apply (Qlt_le_trans _ (1 * 100)); [| discriminate].
    apply Qmult_lt_r; [reflexivity |].
    apply Qlt_shift_div_r; [exact Hn' |].
    rewrite Qmult_1_l. rewrite <- Zlt_Qlt. lia.
Qed.

Lemma quiz_progress_below_full_witness :
  (0 < length [QuizPage.mkQuestion 1 "mcq" (Some ["A"; "B"]);
               QuizPage.mkQuestion 2 "short_answer" None])%nat /\
  let s := QuizPage.run [QuizPage.mkQuestion 1 "mcq" (Some ["A"; "B"]);
                         QuizPage.mkQuestion 2 "short_answer" None]
             [QuizPage.ClickOption "A"; QuizPage.ClickSubmit;
              QuizPage.Settle 0 (QuizPage.AnswerOk (QuizPage.mkResult true 10));
              QuizPage.ClickNext] in
  (QuizPage.currentIndex s < length (QuizPage.quiz s))%nat /\
  (0 <= QuizScreen.progress s < 100)%Q.
Proof. split; [simpl; lia | apply quiz_progress_below_full; simpl; lia]. Defined.

(** At most one answer is awaited at any time: the number of answer
    requests still waiting for their response is 1 while the button shows
    "Checking..." ([submitting]) and 0 otherwise, and no feedback is shown
    while one is waiting. *)
Theorem quiz_single_answer_in_flight (qs : list QuizPage.question) (evs : list QuizPage.ui_event) :
  let s := QuizPage.run qs evs in
  QuizScreen.answers_in_flight s = (if QuizPage.submitting s then 1 else 0)%nat /\
  (QuizPage.submitting s = true -> QuizPage.feedback s = None).
Proof.
  cbv zeta. destruct (QuizRunFacts.run_run_inv qs evs) as (_ & _ & H3 & _ & H5 & _).
  split; [exact H3 | exact H5].
Qed.

(** [results] holds one entry per answered question: as many as the
    questions passed, plus one while the current question's feedback is
    shown, and the feedback shown is the last entry. *)
Theorem quiz_results_per_question (qs : list QuizPage.question) (evs : list QuizPage.ui_event) :
  let s := QuizPage.run qs evs in
  length (QuizPage.results s)
  = (QuizPage.currentIndex s + match QuizPage.feedback s with Some _ => 1 | None => 0 end)%nat /\
  (forall r, QuizPage.feedback s = Some r -> last (QuizPage.results s) = Some r).
Proof.
  cbv zeta. destruct (QuizRunFacts.run_run_inv qs evs) as (_ & _ & _ & _ & _ & H6 & _).
  split; [exact H6 | apply QuizRunFacts.run_fb_last].
Qed.

(** On the results screen [results] has one entry per question, so the
    "correct" count is out of the number of questions and the score is a
    number (never [NaN]) between 0 and 100. *)
Theorem quiz_completion_score (qs : list QuizPage.question) (evs : list QuizPage.ui_event)
    (Hc : QuizPage.completed (QuizPage.run qs evs) = true) :
  let rs := QuizPage.results (QuizPage.run qs evs) in
  length rs = length qs /\ (QuizScreen.total_correct rs <= length qs)%nat /\
  exists p, QuizScreen.score_percent rs = Some p /\ 0 <= p <= 100.
Proof.
  cbv zeta. destruct (QuizRunFacts.run_run_inv qs evs) as (_ & _ & _ & _ & _ & H6 & H7 & _).
  destruct (H7 Hc) as [Hf Hlen].
  assert (Hl : length (QuizPage.results (QuizPage.run qs evs)) = length qs).
  { rewrite H6. unfold QuizRunFacts.fb.
    destruct (QuizPage.feedback (QuizPage.run qs evs)); [lia | contradiction]. }
  split; [exact Hl |]. split.
  - rewrite <- Hl. apply QuizRunFacts.total_correct_le.
  - apply QuizRunFacts.score_percent_some. intros E. rewrite E in Hl. simpl in Hl. lia.
Qed.

Lemma quiz_completion_score_witness :
  QuizPage.completed
    (QuizPage.run [QuizPage.mkQuestion 1 "mcq" (Some ["A"; "B"])]
       [QuizPage.ClickOption "A"; QuizPage.ClickSubmit;
        QuizPage.Settle 0 (QuizPage.AnswerOk (QuizPage.mkResult true 10));
        QuizPage.ClickNext]) = true /\
  let rs := QuizPage.results
              (QuizPage.run [QuizPage.mkQuestion 1 "mcq" (Some ["A"; "B"])]
                 [QuizPage.ClickOption "A"; QuizPage.ClickSubmit;
                  QuizPage.Settle 0 (QuizPage.AnswerOk (QuizPage.mkResult true 10));
                  QuizPage.ClickNext]) in
  length rs = 1%nat /\ (QuizScreen.total_correct rs <= 1)%nat /\
  exists p, QuizScreen.score_percent rs = Some p /\ 0 <= p <= 100.
Proof. split; [vm_compute; reflexivity | apply quiz_completion_score; vm_compute; reflexivity]. Defined.

(** Every request the page sends names a question of the loaded quiz, and
    every answer it sends is a non-empty string. *)
Theorem quiz_requests_well_formed (qs : list QuizPage.question) (evs : list QuizPage.ui_event) :
  Forall (fun r => match r with
                   | QuizPage.HintRequest qid _ => In qid (map QuizPage.q_id qs)
                   | QuizPage.AnswerRequest qid a =>
                       In qid (map QuizPage.q_id qs) /\ a <> EmptyString
                   end) (QuizPage.sent (QuizPage.run qs evs)).
Proof.
  destruct (QuizRunFacts.run_run_inv qs evs) as (_ & _ & _ & _ & _ & _ & _ & H8).
  exact H8.
Qed.

(** While the feedback of an answer is shown, only "Next" does anything to
    the question: no other event sends a request or changes the selected
    option, the typed answer or the question shown. *)
Theorem quiz_feedback_freezes_question (s : QuizPage.state) (e : QuizPage.ui_event)
    (Hf : QuizPage.feedback s <> None) (He : e <> QuizPage.ClickNext) :
  let s' := QuizPage.dispatch s e in
  QuizPage.sent s' = QuizPage.sent s /\
  QuizPage.selectedOption s' = QuizPage.selectedOption s /\
  QuizPage.shortAnswer s' = QuizPage.shortAnswer s /\
  QuizPage.currentIndex s' = QuizPage.currentIndex s.
Proof.
  cbv zeta.
  assert (Hnf : QuizPage.no_feedback s = false).
  { unfold QuizPage.no_feedback. destruct (QuizPage.feedback s); [reflexivity | contradiction]. }
  destruct e as [opt | text | | | | | i o]; simpl.
  - destruct (QuizPage.current_question s); [rewrite Hnf, andb_false_r |]; auto.
  - destruct (QuizPage.current_question s); [rewrite Hnf, andb_false_r |]; auto.
  - destruct (QuizPage.current_question s); [rewrite Hnf, andb_false_r |]; auto.
  - rewrite Hnf, andb_false_r. simpl. auto.
  - unfold QuizPage.hint_button_rendered. rewrite Hnf, andb_false_r. simpl. auto.
  - contradiction.
  - pose proof (QuizFacts.settle_frame s i o) as Hfr. unfold QuizFacts.inputs in Hfr.
    injection Hfr as _ E2 E3 E4. split; [| auto].
    unfold QuizPage.settle. destruct (QuizPage.inflight s !! i) as [p |]; [| reflexivity].
    destruct p, o; try reflexivity; simpl.
    destruct (0 <? QuizPage.xp_earned r); reflexivity.
Qed.

Lemma quiz_feedback_freezes_question_witness :
  QuizPage.feedback
    (QuizPage.run [QuizPage.mkQuestion 1 "mcq" (Some ["A"; "B"])]
       [QuizPage.ClickOption "A"; QuizPage.ClickSubmit;
        QuizPage.Settle 0 (QuizPage.AnswerOk (QuizPage.mkResult false 0))]) <> None /\
  QuizPage.ClickOption "B" <> QuizPage.ClickNext /\
  let s := QuizPage.run [QuizPage.mkQuestion 1 "mcq" (Some ["A"; "B"])]
             [QuizPage.ClickOption "A"; QuizPage.ClickSubmit;
              QuizPage.Settle 0 (QuizPage.AnswerOk (QuizPage.mkResult false 0))] in
  let s' := QuizPage.dispatch s (QuizPage.ClickOption "B") in
  QuizPage.sent s' = QuizPage.sent s /\
  QuizPage.selectedOption s' = QuizPage.selectedOption s /\
  QuizPage.shortAnswer s' = QuizPage.shortAnswer s /\
  QuizPage.currentIndex s' = QuizPage.currentIndex s.
Proof.
  split; [vm_compute; discriminate |]. split; [discriminate |].
  apply quiz_feedback_freezes_question; [vm_compute; discriminate | discriminate].
Defined.

(** Once the results screen is shown, later events change neither the
    results, the question index, the last feedback nor the requests sent,
    and the screen stays. *)
Theorem quiz_results_screen_final (qs : list QuizPage.question) (evs evs' : list QuizPage.ui_event)
    (Hc : QuizPage.completed (QuizPage.run qs evs) = true) :
  let s := QuizPage.run qs evs in
  let s' := QuizPage.run qs (evs ++ evs') in
  QuizPage.completed s' = true /\ QuizPage.results s' = QuizPage.results s /\
  QuizPage.currentIndex s' = QuizPage.currentIndex s /\
  QuizPage.feedback s' = QuizPage.feedback s /\ QuizPage.sent s' = QuizPage.sent s.
Proof.
  cbv zeta.
  replace (QuizPage.run qs (evs ++ evs'))
    with (fold_left QuizPage.dispatch evs' (QuizPage.run qs evs))
    by (unfold QuizPage.run; rewrite fold_left_app; reflexivity).
  apply (QuizRunFacts.fold_completed qs evs' (QuizPage.run qs evs)); [| exact Hc].
  apply QuizRunFacts.run_run_inv.
Qed.

Lemma quiz_results_screen_final_witness :
  QuizPage.completed
    (QuizPage.run [QuizPage.mkQuestion 1 "mcq" (Some ["A"; "B"])]
       [QuizPage.ClickHint; QuizPage.ClickOption "A"; QuizPage.ClickSubmit;
        QuizPage.Settle 1 (QuizPage.AnswerOk (QuizPage.mkResult true 10));
        QuizPage.ClickNext]) = true /\
  let s := QuizPage.run [QuizPage.mkQuestion 1 "mcq" (Some ["A"; "B"])]
             [QuizPage.ClickHint; QuizPage.ClickOption "A"; QuizPage.ClickSubmit;
              QuizPage.Settle 1 (QuizPage.AnswerOk (QuizPage.mkResult true 10));
              QuizPage.ClickNext] in
  let s' := QuizPage.run [QuizPage.mkQuestion 1 "mcq" (Some ["A"; "B"])]
              ([QuizPage.ClickHint; QuizPage.ClickOption "A"; QuizPage.ClickSubmit;
                QuizPage.Settle 1 (QuizPage.AnswerOk (QuizPage.mkResult true 10));
                QuizPage.ClickNext] ++
               [QuizPage.Settle 0 (QuizPage.HintOk "late"); QuizPage.ClickSubmit]) in
  QuizPage.completed s' = true /\ QuizPage.results s' = QuizPage.results s /\
  QuizPage.currentIndex s' = QuizPage.currentIndex s /\
  QuizPage.feedback s' = QuizPage.feedback s /\ QuizPage.sent s' = QuizPage.sent s.
Proof. split; [vm_compute; reflexivity | apply quiz_results_screen_final; vm_compute; reflexivity]. Defined.

(** The notice "{3 - hintLevel} hints remaining · XP reduced by
    {hintLevel * 2}" only ever reads 2, 1 or 0 hints remaining with the
    reduction 2, 4 or 6 that goes with it. *)
Theorem quiz_hint_notice_range (qs : list QuizPage.question) (evs : list QuizPage.ui_event) (k x : Z)
    (H : QuizPage.xp_notice (QuizPage.run qs evs) = Some (k, x)) :
  0 <= k <= 2 /\ x = 6 - 2 * k.
Proof.
  destruct (QuizFacts.run_hint_inv qs evs) as (Hb & _).
  unfold QuizPage.xp_notice in H.
  destruct (QuizPage.question_view _ && (0 <? _) && _) eqn:E; [| discriminate].
  apply andb_prop in E as [E _]. apply andb_prop in E as [_ E]. apply Z.ltb_lt in E.
  injection H as <- <-. lia.
Qed.

Lemma quiz_hint_notice_range_witness :
  QuizPage.xp_notice
    (QuizPage.run [QuizPage.mkQuestion 1 "mcq" (Some ["A"; "B"])]
       [QuizPage.ClickHint; QuizPage.Settle 0 (QuizPage.HintOk "h")]) = Some (2, 2) /\
  0 <= 2 <= 2 /\ 2 = 6 - 2 * 2.
Proof.
  split; [vm_compute; reflexivity |].
  apply (quiz_hint_notice_range [QuizPage.mkQuestion 1 "mcq" (Some ["A"; "B"])]
           [QuizPage.ClickHint; QuizPage.Settle 0 (QuizPage.HintOk "h")]).
  vm_compute. reflexivity.
Defined.

(** Whenever the hint button is shown its label is "Need a hint?",
    "Hint 2 of 3" or "Hint 3 of 3", never a hint number above 3. *)
Theorem quiz_hint_label_range (qs : list QuizPage.question) (evs : list QuizPage.ui_event)
    (H : QuizPage.hint_button_rendered (QuizPage.run qs evs) = true) :
  let l := QuizScreen.hint_button_label (QuizPage.run qs evs) in
  l = None \/ l = Some 2 \/ l = Some 3.
Proof.
  cbv zeta. destruct (QuizFacts.run_hint_inv qs evs) as (Hb & _).
  unfold QuizPage.hint_button_rendered in H. apply andb_prop in H as [_ H].
  apply Z.ltb_lt in H. unfold QuizScreen.hint_button_label.
  destruct (QuizPage.hintLevel (QuizPage.run qs evs) =? 0) eqn:E; [left; reflexivity |].
  apply Z.eqb_neq in E. right.
  assert (Hl : QuizPage.hintLevel (QuizPage.run qs evs) = 1 \/
               QuizPage.hintLevel (QuizPage.run qs evs) = 2) by lia.
  destruct Hl as [-> | ->]; [left | right]; reflexivity.
Qed.

Lemma quiz_hint_label_range_witness :
  QuizPage.hint_button_rendered
    (QuizPage.run [QuizPage.mkQuestion 1 "mcq" (Some ["A"; "B"])]
       [QuizPage.ClickHint; QuizPage.Settle 0 (QuizPage.HintOk "h")]) = true /\
  let l := QuizScreen.hint_button_label
             (QuizPage.run [QuizPage.mkQuestion 1 "mcq" (Some ["A"; "B"])]
                [QuizPage.ClickHint; QuizPage.Settle 0 (QuizPage.HintOk "h")]) in
  l = None \/ l = Some 2 \/ l = Some 3.
Proof. split; [vm_compute; reflexivity | apply quiz_hint_label_range; vm_compute; reflexivity]. Defined.


(** ** Upload page: the processing steps *)

Module UploadFacts.
Import Views UploadPage.

Definition is_up (p : upending) : bool :=
  match p with AwaitUpload _ => true | _ => false end.

Definition is_fin (p : upending) : bool :=
  match p with AwaitDocs true | ResetTimer => true | _ => false end.

Definition up_with (iv : nat) (p : upending) : Prop :=
  match p with AwaitUpload j => j = iv | _ => True end.

Definition nf (f : upending -> bool) (l : list upending) : nat := length (List.filter f l).

(** Idle; an upload pending with its step interval running; or the upload
    done, its documents reload or reset timer pending. *)
Definition uinv (s : ustate) : Prop :=
  (uploading s = false /\ processingStep s = -1 /\ intervals s = [] /\
   nf is_up (pend s) = 0%nat /\ nf is_fin (pend s) = 0%nat)
  \/ (uploading s = true /\ 0 <= processingStep s <= 3 /\
      nf is_up (pend s) = 1%nat /\ nf is_fin (pend s) = 0%nat /\
      exists iv, intervals s = [iv] /\ Forall (up_with iv) (pend s))
  \/ (uploading s = true /\ processingStep s = 4 /\ intervals s = [] /\
      nf is_up (pend s) = 0%nat /\ nf is_fin (pend s) = 1%nat).

Lemma nf_delete (f : upending -> bool) (l : list upending) (i : nat) (p : upending) :
  l !! i = Some p -> nf f l = (nf f (delete i l) + if f p then 1 else 0)%nat.
Proof.
  unfold nf. revert i. induction l as [| x l IH]; intros [| i] Hi; simpl in Hi; try discriminate.
  - injection Hi as ->. simpl. destruct (f p); simpl; lia.
  - simpl. destruct (f x); simpl; rewrite (IH i Hi); lia.
Qed.

Lemma nf_app (f : upending -> bool) (l l' : list upending) :
  nf f (l ++ l') = (nf f l + nf f l')%nat.
Proof. unfold nf. rewrite List.filter_app, length_app. reflexivity. Qed.

Lemma nf_single (f : upending -> bool) (x : upending) :
  nf f [x] = if f x then 1%nat else 0%nat.
Proof. unfold nf. simpl. destruct (f x); reflexivity. Qed.

Lemma no_up_with (iv : nat) (l : list upending) :
  nf is_up l = 0%nat -> Forall (up_with iv) l.
Proof.
  unfold nf. induction l as [| x l IH]; intros H; constructor.
  - destruct x; simpl in *; auto. discriminate.
  - apply IH. destruct x; simpl in *; auto. discriminate.
Qed.

Lemma uinv_mounted : uinv mounted.
Proof. left. repeat split. Qed.

Lemma ustep_uinv (s : ustate) (e : uevent) : uinv s -> uinv (ustep s e).
Proof.
  intros H. destruct e as [fs | iv | i o]; simpl.
  - destruct (uploading s) eqn:Hu; [exact H |].
    destruct fs as [| f fs]; [exact H |]. simpl.
    destruct H as [(_ & _ & Hiv & Hup & Hfin) | [(Hu' & _) | (Hu' & _)]];
      [| congruence | congruence].
    right; left. simpl. rewrite !nf_app, ?nf_single, Hup, Hfin, Hiv. simpl.
    refine (conj eq_refl (conj _ (conj eq_refl (conj eq_refl _)))); [lia |].
    exists (next_timer s). split; [reflexivity |].
    apply Forall_app. split; [apply no_up_with, Hup | repeat constructor].
  - destruct (existsb (Nat.eqb iv) (intervals s)) eqn:E; [| exact H].
    destruct H as [(_ & _ & Hiv & _) | [(Hu & Hst & Hup & Hfin & Hex) | (_ & _ & Hiv & _)]];
      [rewrite Hiv in E; discriminate | | rewrite Hiv in E; discriminate].
    right; left. unfold tick; simpl.
    refine (conj Hu (conj _ (conj Hup (conj Hfin Hex)))). lia.
  - unfold usettle. destruct (pend s !! i) as [p |] eqn:Hp; [| exact H].
    pose proof (nf_delete is_up _ _ _ Hp) as Cu.
    pose proof (nf_delete is_fin _ _ _ Hp) as Cf.
    destruct p as [j | [|] |], o as [v | msg |]; simpl in Cu, Cf |- *; try exact H.
    + (* upload fulfilled *)
      destruct H as [(_ & _ & _ & Hup & _) | [(Hu & Hst & Hup & Hfin & iv & Hiv & Hw) | (_ & _ & _ & Hup & _)]];
        [lia | | lia].
      pose proof (Forall_lookup_1 _ _ _ _ Hw Hp) as Hj. simpl in Hj. subst j.
      right; right. simpl. rewrite !nf_app, ?nf_single, Hiv. simpl. rewrite Nat.eqb_refl. simpl.
      refine (conj Hu (conj eq_refl (conj eq_refl (conj _ _)))); lia.
    + (* upload rejected *)
      destruct H as [(_ & _ & _ & Hup & _) | [(Hu & Hst & Hup & Hfin & iv & Hiv & Hw) | (_ & _ & _ & Hup & _)]];
        [lia | | lia].
      pose proof (Forall_lookup_1 _ _ _ _ Hw Hp) as Hj. simpl in Hj. subst j.
      left. simpl. rewrite Hiv. simpl. rewrite Nat.eqb_refl. simpl.
      refine (conj eq_refl (conj eq_refl (conj eq_refl (conj _ _)))); lia.
    + (* reload after an upload, fulfilled *)
      destruct H as [(_ & _ & _ & _ & Hfin) | [(_ & _ & _ & Hfin & _) | (Hu & Hst & Hiv & Hup & Hfin)]];
        [lia | lia |].
      right; right. simpl. rewrite !nf_app, ?nf_single. simpl.
      refine (conj Hu (conj Hst (conj Hiv (conj _ _)))); lia.
    + (* reload after an upload, rejected *)
      destruct H as [(_ & _ & _ & _ & Hfin) | [(_ & _ & _ & Hfin & _) | (Hu & Hst & Hiv & Hup & Hfin)]];
        [lia | lia |].
      right; right. simpl. rewrite !nf_app, ?nf_single. simpl.
      refine (conj Hu (conj Hst (conj Hiv (conj _ _)))); lia.
    + (* the mount's reload, fulfilled *)
      destruct H as [(Hu & Hst & Hiv & Hup & Hfin) | [(Hu & Hst & Hup & Hfin & iv & Hiv & Hw) | (Hu & Hst & Hiv & Hup & Hfin)]].
      * left. simpl. refine (conj Hu (conj Hst (conj Hiv (conj _ _)))); lia.
      * right; left. simpl. refine (conj Hu (conj Hst (conj _ (conj _ _)))); [lia | lia |].
        exists iv. split; [exact Hiv | apply Forall_delete, Hw].
      * right; right. simpl. refine (conj Hu (conj Hst (conj Hiv (conj _ _)))); lia.
    + (* the mount's reload, rejected *)
      destruct H as [(Hu & Hst & Hiv & Hup & Hfin) | [(Hu & Hst & Hup & Hfin & iv & Hiv & Hw) | (Hu & Hst & Hiv & Hup & Hfin)]].
      * left. simpl. refine (conj Hu (conj Hst (conj Hiv (conj _ _)))); lia.
      * right; left. simpl. refine (conj Hu (conj Hst (conj _ (conj _ _)))); [lia | lia |].
        exists iv. split; [exact Hiv | apply Forall_delete, Hw].
      * right; right. simpl. refine (conj Hu (conj Hst (conj Hiv (conj _ _)))); lia.
    + (* the reset timer *)
      destruct H as [(_ & _ & _ & _ & Hfin) | [(_ & _ & _ & Hfin & _) | (Hu & Hst & Hiv & Hup & Hfin)]];
        [lia | lia |].
      left. simpl. refine (conj eq_refl (conj eq_refl (conj Hiv (conj _ _)))); lia.
Qed.

Lemma in_up_nf (iv : nat) (l : list upending) :
  In (AwaitUpload iv) l -> (1 <= nf is_up l)%nat.
Proof.
  unfold nf. induction l as [| x l IH]; intros Hin; [destruct Hin |].
  destruct Hin as [-> | Hin]; simpl; [lia |].
  destruct (is_up x); simpl; specialize (IH Hin); lia.
Qed.

Lemma urun_uinv (evs : list uevent) : uinv (urun evs).
Proof.
  unfold urun. generalize uinv_mounted. generalize mounted.
  induction evs as [| e evs IH]; intros s Hs; simpl; [exact Hs |].
  apply IH, ustep_uinv, Hs.
Qed.
End UploadFacts.

(** The processing card and the dropzone agree: the page is uploading
    exactly when a step is shown ([processingStep] is not -1), the step
    stays within the five steps, at most one step interval runs and at most
    one upload is awaited, so a second drop never starts a parallel upload. *)
Theorem upload_steps_consistent (evs : list UploadPage.uevent) :
  let s := UploadPage.urun evs in
  (UploadPage.uploading s = false <-> UploadPage.processingStep s = -1) /\
  -1 <= UploadPage.processingStep s <= 4 /\
  (length (UploadPage.intervals s) <= 1)%nat /\
  (length (List.filter (fun p => match p with UploadPage.AwaitUpload _ => true | _ => false end)
                       (UploadPage.pend s)) <= 1)%nat.
Proof.
  cbv zeta.
  change (length (List.filter _ (UploadPage.pend (UploadPage.urun evs))))
    with (UploadFacts.nf UploadFacts.is_up (UploadPage.pend (UploadPage.urun evs))).
  destruct (UploadFacts.urun_uinv evs)
    as [(Hu & Hs & Hiv & Hup & _) | [(Hu & Hs & Hup & _ & iv & Hiv & _) | (Hu & Hs & Hiv & Hup & _)]];
    rewrite Hu, Hiv; simpl; (split; [split; intros; first [lia | discriminate] |]); lia.
Qed.

(** The simulated progress never passes "Extracting topics with AI..."
    (step 3) while the upload request is pending; "Ready to learn!"
    (step 4) shows only after the upload has resolved, with the step
    interval cleared and the page still uploading until the reset. *)
Theorem upload_ready_only_after_response (evs : list UploadPage.uevent) :
  let s := UploadPage.urun evs in
  (UploadPage.processingStep s = 4 ->
     UploadPage.uploading s = true /\ UploadPage.intervals s = [] /\
     forall iv, ~ In (UploadPage.AwaitUpload iv) (UploadPage.pend s)) /\
  (forall iv, In (UploadPage.AwaitUpload iv) (UploadPage.pend s) ->
     0 <= UploadPage.processingStep s <= 3 /\ UploadPage.intervals s = [iv]).
Proof.
  cbv zeta. set (s := UploadPage.urun evs).
  destruct (UploadFacts.urun_uinv evs)
    as [(Hu & Hs & Hiv & Hup & _) | [(Hu & Hs & Hup & _ & iv0 & Hiv & Hw) | (Hu & Hs & Hiv & Hup & _)]];
    fold s in Hu, Hs, Hiv, Hup |- *.
  - split; [intros; lia |].
    intros iv Hin. pose proof (UploadFacts.in_up_nf iv _ Hin). lia.
  - split; [intros; lia |].
    intros iv Hin. split; [exact Hs |]. rewrite Hiv.
    pose proof (proj1 (List.Forall_forall _ _) Hw _ Hin) as Hj. simpl in Hj. subst. reflexivity.
  - split.
    + intros _. split; [exact Hu | split; [exact Hiv |]].
      intros iv Hin. pose proof (UploadFacts.in_up_nf iv _ Hin). lia.
    + intros iv Hin. pose proof (UploadFacts.in_up_nf iv _ Hin). lia.
Qed.

(** While the processing card is shown, it marks a prefix of the steps
    done, exactly one step active and the rest waiting. *)
Theorem upload_card_one_active (evs : list UploadPage.uevent)
    (H : UploadPage.uploading (UploadPage.urun evs) = true) :
  exists k, (k <= 4)%nat /\
    UploadPage.processing_card (UploadPage.processingStep (UploadPage.urun evs))
    = repeat UploadPage.StepDone k ++ [UploadPage.StepActive] ++ repeat UploadPage.StepWaiting (4 - k).
Proof.
  assert (Hr : 0 <= UploadPage.processingStep (UploadPage.urun evs) <= 4).
  { destruct (UploadFacts.urun_uinv evs)
      as [(Hu & _) | [(_ & Hs & _) | (_ & Hs & _)]]; [congruence | lia | lia]. }
  destruct (UploadPage.processingStep (UploadPage.urun evs)) as [| p | p] eqn:E; [| | lia].
  - exists 0%nat. split; [lia | reflexivity].
  - assert (Hp : Z.pos p = 1 \/ Z.pos p = 2 \/ Z.pos p = 3 \/ Z.pos p = 4) by lia.
    destruct Hp as [Hp | [Hp | [Hp | Hp]]]; rewrite Hp;
      [exists 1%nat | exists 2%nat | exists 3%nat | exists 4%nat];
      (split; [lia | reflexivity]).
Qed.

Lemma upload_card_one_active_witness :
  UploadPage.uploading
    (UploadPage.urun [UploadPage.DropFiles ["notes.pdf"]; UploadPage.IntervalFires 0]) = true /\
  exists k, (k <= 4)%nat /\
    UploadPage.processing_card
      (UploadPage.processingStep
         (UploadPage.urun [UploadPage.DropFiles ["notes.pdf"]; UploadPage.IntervalFires 0]))
    = repeat UploadPage.StepDone k ++ [UploadPage.StepActive] ++ repeat UploadPage.StepWaiting (4 - k).
Proof. split; [vm_compute; reflexivity | apply upload_card_one_active; vm_compute; reflexivity]. Defined.

(** ** The API client *)

Module ApiFacts.
Import Views Api.

Lemma prop_obj_put (o : list (string * string)) (k v k' : string) :
  prop (obj_put o k v) k' = if String.eqb k' k then Some v else prop o k'.
Proof.
  induction o as [| [k1 v1] o IH]; simpl; [reflexivity |].
  destruct (String.eqb_spec k k1) as [-> | Hne]; simpl.
  - destruct (String.eqb k' k1); reflexivity.
  - rewrite IH. destruct (String.eqb_spec k' k1) as [E1 | Hne1];
      destruct (String.eqb_spec k' k) as [E2 | Hne2]; congruence.
Qed.

Lemma prop_app (l l' : list (string * string)) (k : string) :
  prop (l ++ l') k = match prop l k with Some v => Some v | None => prop l' k end.
Proof.
  induction l as [| [k1 v1] l IH]; simpl; [reflexivity |].
  destruct (String.eqb k k1); [reflexivity | exact IH].
Qed.

(** Spreading [o2] over [o]: a key takes its last value in [o2], else its
    value in [o]. *)
Lemma prop_spread (o o2 : list (string * string)) (k : string) :
  prop (spread o o2) k = match prop (rev o2) k with Some v => Some v | None => prop o k end.
Proof.
  unfold spread. revert o. induction o2 as [| [k1 v1] o2 IH]; intros o; simpl; [reflexivity |].
  rewrite IH, prop_app, prop_obj_put. simpl.
  destruct (prop (rev o2) k); [reflexivity |].
  destruct (String.eqb k k1); reflexivity.
Qed.

End ApiFacts.

(** Every header the caller passes reaches [fetch] with its last value; a
    request without a caller's Content-Type is sent as
    "application/json", except one whose body is a [FormData], which gets
    no Content-Type at all; no other header is added. *)
Theorem api_request_headers (endpoint : string) (opts : Api.options) (k : string) :
  Api.prop (Api.c_headers (Api.request_config endpoint opts)) k
  = match Api.prop (rev (Api.headers opts)) k with
    | Some v => Some v
    | None =>
        if String.eqb k "Content-Type" && negb (Api.is_form_data (Api.body opts))
        then Some "application/json" else None
    end.
Proof.
  simpl. unfold Api.config_headers. rewrite ApiFacts.prop_spread.
  destruct (Api.prop (rev (Api.headers opts)) k); [reflexivity |].
  destruct (Api.is_form_data (Api.body opts)); simpl.
  - rewrite andb_false_r. reflexivity.
  - rewrite andb_true_r. reflexivity.
Qed.


(** ** The Dashboard's topic radar *)





Lemma substring_0_empty (n : nat) (t : string) :
  (0 < n)%nat -> String.substring 0 n t = EmptyString -> t = EmptyString.
Proof. destruct n as [| n], t as [| c t]; simpl; intros; [lia | lia | reflexivity | discriminate]. Qed.

(** The recent-quizzes chart has a bar for each of the first six quizzes,
    in order and with its score. A bar is named by the first ten characters
    of its quiz's topic, or "Quiz k" for the k-th bar when the topic is
    missing or empty. *)
Theorem dashboard_bar_names (rq : list (option string * Q)) :
  length (Radar.bar_data rq) = Nat.min 6 (length rq) /\
  (forall (i : nat) (topic : option string) (sc : Q),
     rq !! i = Some (topic, sc) -> (i < 6)%nat ->
     Radar.bar_data rq !! i
     = Some (Radar.mkBar
               (match topic with
                | Some t => if String.eqb t EmptyString
                            then ("Quiz " ++ pretty (Z.of_nat (S i)))%string
                            else String.substring 0 10 t
                | None => ("Quiz " ++ pretty (Z.of_nat (S i)))%string
                end) sc)).
Proof.
  unfold Radar.bar_data. split.
  - rewrite length_imap, length_take. lia.
  - intros i topic sc Hi H6. rewrite list_lookup_imap, lookup_take_lt by exact H6.
    rewrite Hi. simpl. f_equal. f_equal. unfold Radar.bar_name. rewrite Nat.add_1_r.
    destruct topic as [t |]; [| reflexivity]. simpl.
    destruct (String.eqb_spec (String.substring 0 10 t) EmptyString) as [E | E];
      destruct (String.eqb_spec t EmptyString) as [Et | Et]; try reflexivity.
    + exfalso. apply Et. apply (substring_0_empty 10); [lia | exact E].
    + subst t. simpl in E. contradiction.
Qed.
